(** * Expense tracker: the ledger, its capture adapters and its derived views

    A shallow embedding of [src/app/page.tsx] (the [Home] component) and the
    properties of its expense ledger.

    Conventions of the embedding.
    - A JavaScript [number] is an IEEE 754 binary64 value: Rocq's primitive
      [float], with its operations and comparisons.
    - A JavaScript string is a [string]; text outside ASCII is held in its
      UTF-8 encoding.  [String.prototype.includes] compares code units, which
      on well-formed text finds the same occurrences as comparing UTF-8 bytes.
    - [Date.now()] is an integer number of milliseconds, a [Z].
    - Library functions of the JavaScript runtime whose result is only
      displayed or compared ([toLowerCase], [Intl.NumberFormat], the
      [toString] of a number, [toISOString]) are parameters of the model.
    - React state is a record; a state setter is a function on that record.
      An [async] handler is cut at each [await]: the part before it runs on
      the state of the click, the part after it on the state of the moment the
      promise settles, with the handler's closure carried along. *)

From Stdlib Require Import ZArith NArith List String Ascii Bool Lia.
From Stdlib Require Import Floats DecimalString DecimalZ DecimalNat.
Import ListNotations.

Open Scope list_scope.
Open Scope string_scope.

(* ================================================================== *)
(** * 1. JavaScript values used by the component *)
(* ================================================================== *)

(** ** Strings *)

(** [s.startsWith(q)] *)
Fixpoint startsWith (s q : string) {struct q} : bool :=
  match q, s with
  | EmptyString, _ => true
  | String _ _, EmptyString => false
  | String c q', String d s' => Ascii.eqb c d && startsWith s' q'
  end.

(** [s.includes(q)]: [q] occurs in [s] at some position. *)
Fixpoint includes (s q : string) : bool :=
  startsWith s q ||
  match s with
  | EmptyString => false
  | String _ s' => includes s' q
  end.

(** A value used as a condition: the empty string is falsy. *)
Definition truthy_string (s : string) : bool :=
  match s with EmptyString => false | _ => true end.

(** [a || b] on strings. *)
Definition or_string (a b : string) : string :=
  if truthy_string a then a else b.

(** [a || b] where [a] may be [undefined]. *)
Definition or_default (a : option string) (b : string) : string :=
  match a with
  | Some s => or_string s b
  | None => b
  end.

(** ** Numbers *)

Definition number : Type := float.

Definition isNaN (x : number) : bool := negb (x =? x)%float.

(** A number used as a condition: [0], [-0] and [NaN] are falsy. *)
Definition truthy_number (x : number) : bool :=
  negb ((x =? 0)%float || isNaN x).

(** [x || y] on numbers. *)
Definition or_number (x y : number) : number :=
  if truthy_number x then x else y.

(** The value of a binary64 number in units of the least positive one,
    2^-1074; the infinities are given the first power of two beyond the
    finite numbers. *)
Definition scaled (x : spec_float) : Z :=
  match x with
  | S754_zero _ => 0
  | S754_infinity s => cond_Zopp s (2 ^ 2098)
  | S754_nan => 0
  | S754_finite s m e => cond_Zopp s (Zpos m * 2 ^ (e + 1074))
  end%Z.

Definition rank (x : number) : Z := scaled (Prim2SF x).

(** ** parseFloat *)

Definition is_digit (c : ascii) : bool :=
  (48 <=? nat_of_ascii c)%nat && (nat_of_ascii c <=? 57)%nat.

Definition digit_value (c : ascii) : Z := Z.of_nat (nat_of_ascii c) - 48.

(** The decimal digits at the start of [s], and what follows them. *)
Fixpoint scan_digits (s : string) : list Z * string :=
  match s with
  | String c s' =>
      if is_digit c
      then let '(ds, rest) := scan_digits s' in (digit_value c :: ds, rest)
      else ([], s)
  | EmptyString => ([], s)
  end.

Definition digits_value (ds : list Z) : Z :=
  fold_left (fun acc d => 10 * acc + d)%Z ds 0%Z.

Fixpoint strip_zeros (ds : list Z) : list Z :=
  match ds with
  | d :: ds' => if (d =? 0)%Z then strip_zeros ds' else ds
  | [] => []
  end.

(** White space and line terminators that [parseFloat] skips, in UTF-8:
    TAB, LF, VT, FF, CR, SPACE, U+00A0, U+1680, U+2000..U+200A, U+2028,
    U+2029, U+202F, U+205F, U+3000, U+FEFF. *)
Definition white_space_prefix (s : string) : option string :=
  match s with
  | String c s1 =>
      let n := nat_of_ascii c in
      if ((9 <=? n) && (n <=? 13) || (n =? 32))%nat then Some s1
      else match s1 with
      | String c2 s2 =>
          let n2 := nat_of_ascii c2 in
          if ((n =? 194) && (n2 =? 160))%nat then Some s2
          else match s2 with
          | String c3 s3 =>
              let n3 := nat_of_ascii c3 in
              if ((n =? 225) && (n2 =? 154) && (n3 =? 128)
                  || (n =? 226) && (n2 =? 128)
                     && ((128 <=? n3) && (n3 <=? 138) || (n3 =? 168)
                         || (n3 =? 169) || (n3 =? 175))
                  || (n =? 226) && (n2 =? 129) && (n3 =? 159)
                  || (n =? 227) && (n2 =? 128) && (n3 =? 128)
                  || (n =? 239) && (n2 =? 187) && (n3 =? 191))%nat
              then Some s3 else None
          | EmptyString => None
          end
      | EmptyString => None
      end
  | EmptyString => None
  end.

(** [TrimString(s, start)]; the fuel is the length of the string. *)
Fixpoint trimStart_fuel (fuel : nat) (s : string) : string :=
  match fuel with
  | O => s
  | S fuel' =>
      match white_space_prefix s with
      | Some s' => trimStart_fuel fuel' s'
      | None => s
      end
  end.

Definition trimStart (s : string) : string := trimStart_fuel (String.length s) s.

(** The number nearest to [m * 10^e10] (ties to even), for [m > 0].  Values
    far outside the binary64 range are settled without building the power. *)
Definition round_decimal (neg : bool) (nd : Z) (m e10 : Z) : number :=
  if (309 <=? nd - 1 + e10)%Z then (if neg then neg_infinity else infinity)
  else if (nd + e10 <=? -324)%Z then (if neg then neg_zero else zero)
  else
    let n := if (0 <=? e10)%Z then (m * 10 ^ e10)%Z else m in
    let d := if (0 <=? e10)%Z then 1%Z else (10 ^ (- e10))%Z in
    let '(q, e', l) := SFdiv_core_binary prec emax n 0 d 0 in
    SF2Prim (binary_round_aux prec emax neg q e' l).

(** [StrUnsignedDecimalLiteral]: the longest prefix of [s] that is one, as
    a number; [NaN] when there is none. *)
Definition parse_unsigned (neg : bool) (s : string) : number :=
  if startsWith s "Infinity" then (if neg then neg_infinity else infinity)
  else
    let '(int_part, after_int) := scan_digits s in
    let '(frac_part, after_frac) :=
      match after_int with
      | String "." s' => scan_digits s'
      | _ => ([], after_int)
      end in
    match int_part, frac_part with
    | [], [] => nan
    | _, _ =>
        let exponent :=
          match after_frac with
          | String c s' =>
              if (Ascii.eqb c "e" || Ascii.eqb c "E")%bool then
                match s' with
                | String "+" s2 =>
                    match fst (scan_digits s2) with
                    | [] => 0%Z
                    | ds => digits_value ds
                    end
                | String "-" s2 =>
                    match fst (scan_digits s2) with
                    | [] => 0%Z
                    | ds => (- digits_value ds)%Z
                    end
                | _ =>
                    match fst (scan_digits s') with
                    | [] => 0%Z
                    | ds => digits_value ds
                    end
                end
              else 0%Z
          | EmptyString => 0%Z
          end in
        let significant := strip_zeros (int_part ++ frac_part)%list in
        match significant with
        | [] => if neg then neg_zero else zero
        | _ =>
            round_decimal neg (Z.of_nat (List.length significant))
              (digits_value significant)
              (exponent - Z.of_nat (List.length frac_part))
        end
    end.

(** [parseFloat(s)] for a string [s]. *)
Definition parseFloat (s : string) : number :=
  match trimStart s with
  | String "+" s' => parse_unsigned false s'
  | String "-" s' => parse_unsigned true s'
  | s' => parse_unsigned false s'
  end.

(** ** Decimal text of integers *)

(** [n.toString()] for an integer [n] (below 10^21 in magnitude, where
    JavaScript prints all digits). *)
Definition Z_toString (n : Z) : string := NilZero.string_of_int (Z.to_int n).

(** [`${i}`] for an array index or a length. *)
Definition nat_toString (n : nat) : string := NilZero.string_of_uint (Nat.to_uint n).

(* ================================================================== *)
(** * 2. Data model *)
(* ================================================================== *)

(** Predefined categories *)
Definition CATEGORIES : list string :=
  [ "Food & Dining"; "Transportation"; "Shopping"; "Entertainment";
    "Bills & Utilities"; "Healthcare"; "Travel"; "Education";
    "Personal Care"; "Other" ].

Definition AGENT_ID : string := "6986fb79b5dbd6b726853933".

Inductive Source : Type := manual | excel | image.

(** A value that the component takes from a reply of the agent without
    looking at its type ([result] is untyped in the source): absent
    ([undefined], [null] or a missing property), a boolean, a number, a
    string, or an object or array with the [toString] of its prototype, of
    which the model keeps the text that [toString()] returns. *)
Inductive JsValue : Type :=
| JsAbsent
| JsBoolean (b : bool)
| JsNumber (x : number)
| JsString (s : string)
| JsCompound (text : string).

(** [!!v] *)
Definition truthy_value (v : JsValue) : bool :=
  match v with
  | JsAbsent => false
  | JsBoolean b => b
  | JsNumber x => truthy_number x
  | JsString s => truthy_string s
  | JsCompound _ => true
  end.

(** [x || y] *)
Definition or_value (x y : JsValue) : JsValue :=
  if truthy_value x then x else y.

(** The [confidence] of an expense is declared a number; the image record
    takes it from the reply as it is, so it is kept as the value it is. *)
Module Expense.
Record t : Type := mk {
  id : string;
  amount : number;
  category : string;
  notes : string;
  date : string;
  source : Source;
  confidence : option JsValue
}.
End Expense.

Inductive NotificationType : Type := success | error | info.

Module Notification.
Record t : Type := mk {
  type : NotificationType;
  message : string;
  id : string
}.
End Notification.

Module Confidence.
Record t : Type := mk {
  amount : JsValue;
  category : JsValue;
  overall : JsValue
}.
End Confidence.

Module ExtractedExpense.
Record t : Type := mk {
  amount : string;
  category : string;
  notes : string;
  confidence : Confidence.t
}.
End ExtractedExpense.

(** A [File] as far as the component looks at it. *)
Module File.
Record t : Type := mk {
  name : string;
  type : string
}.
End File.

(** A value of unknown type passed to [parseFloat]: absent ([undefined] or
    [null]), a number, or a string. *)
Inductive Scalar : Type :=
| Absent
| NumberValue (x : number)
| StringValue (s : string).

(** An element of [excelPreview] ([any[]] in the source), with the
    properties the component reads.  The text properties are typed as the
    [Expense] they are copied into: absent, or a string. *)
Module PreviewItem.
Record t : Type := mk {
  amount : Scalar;
  category : option string;
  notes : option string;
  date : option string
}.
End PreviewItem.

(** [parseFloat(v)] for a value of unknown type: the argument is converted
    to a string first.  The text of a number parses back to that number
    ([-0] prints as ["0"]); ["undefined"] and ["null"] do not parse. *)
Definition parseFloat_any (v : Scalar) : number :=
  match v with
  | Absent => nan
  | NumberValue x => if (x =? 0)%float then 0%float else x
  | StringValue s => parseFloat s
  end.

(* ================================================================== *)
(** * 3. Derived views: filtered list, total, category totals, top category *)
(* ================================================================== *)

(** ** The accumulator object of [categoryTotals] *)

(** What a property of the accumulator holds: a number, or the text that
    results from adding a number to something that is not one. *)
Inductive Total : Type :=
| Num (x : number)
| Text.

(** The own properties of an object created by [{}], in creation order. *)
Definition JsObject : Type := list (string * Total).

(** The function-valued properties every object inherits from
    [Object.prototype]. *)
Definition Object_prototype_functions : list string :=
  [ "constructor"; "hasOwnProperty"; "isPrototypeOf"; "propertyIsEnumerable";
    "toLocaleString"; "toString"; "valueOf";
    "__defineGetter__"; "__defineSetter__"; "__lookupGetter__";
    "__lookupSetter__" ].

Definition inherited_function (k : string) : bool :=
  existsb (String.eqb k) Object_prototype_functions.

Fixpoint own_property (o : JsObject) (k : string) : option Total :=
  match o with
  | [] => None
  | (k', v) :: o' => if String.eqb k' k then Some v else own_property o' k
  end.

(** [o[k] = v] for a key that is not ["__proto__"]. *)
Fixpoint set_property (o : JsObject) (k : string) (v : Total) : JsObject :=
  match o with
  | [] => [(k, v)]
  | (k', v') :: o' =>
      if String.eqb k' k then (k', v) :: o' else (k', v') :: set_property o' k v
  end.

(** [(read || 0) + amount], where [read] is what [acc[k]] reads: an own
    number is added to (a falsy one counts as 0), an own text is appended
    to, a missing property reads [undefined] and counts as 0 unless the name
    is inherited, where it reads as a function or an object and the sum is a
    text. *)
Definition add_amount (k : string) (read : option Total) (amount : number) : Total :=
  match read with
  | Some (Num x) => Num (or_number x 0 + amount)%float
  | Some Text => Text
  | None =>
      if (inherited_function k || String.eqb k "__proto__")%bool then Text
      else Num (0 + amount)%float
  end.

(** [acc[k] = (acc[k] || 0) + amount; return acc].  Assigning a text to
    ["__proto__"] runs the inherited setter, which ignores it. *)
Definition accumulate (acc : JsObject) (k : string) (amount : number) : JsObject :=
  if String.eqb k "__proto__" then acc
  else set_property acc k (add_amount k (own_property acc k) amount).

Definition keys (o : JsObject) : list string := map fst o.

(** An array index: the canonical decimal text of an integer in
    [0, 2^32 - 2]. *)
Definition all_digits (s : string) : bool :=
  forallb is_digit (list_ascii_of_string s).

Definition array_index (k : string) : option N :=
  match k with
  | EmptyString => None
  | String c rest =>
      if all_digits k && (negb (Ascii.eqb c "0") || String.eqb rest "") then
        let n := Z.to_N (digits_value (map digit_value (list_ascii_of_string k))) in
        if (n <=? 4294967294)%N then Some n else None
      else None
  end.

Definition is_array_index (k : string) : bool :=
  match array_index k with Some _ => true | None => false end.

Definition index_of (k : string) : N :=
  match array_index k with Some n => n | None => 0%N end.

Fixpoint insert_by_index (e : string * Total) (l : list (string * Total))
  : list (string * Total) :=
  match l with
  | [] => [e]
  | e' :: l' =>
      if (index_of (fst e) <=? index_of (fst e'))%N then e :: l
      else e' :: insert_by_index e l'
  end.

(** [Object.entries(o)]: the array indices in ascending numeric order, then
    the other keys in creation order. *)
Definition Object_entries (o : JsObject) : list (string * Total) :=
  (fold_right insert_by_index [] (filter (fun e => is_array_index (fst e)) o)
   ++ filter (fun e => negb (is_array_index (fst e))) o)%list.

(** ** Array.prototype.sort with [(a, b) => b[1] - a[1]] *)

Definition ToNumber (t : Total) : number :=
  match t with
  | Num x => x
  | Text => nan
  end.

Definition comparefn (a b : string * Total) : number :=
  (ToNumber (snd b) - ToNumber (snd a))%float.

(** [sort] is stable: an element moves behind another only when the
    comparison is positive; a [NaN] comparison counts as 0. *)
Definition sorts_after (a b : string * Total) : bool :=
  (0 <? comparefn a b)%float.

Fixpoint sort_insert (a : string * Total) (l : list (string * Total))
  : list (string * Total) :=
  match l with
  | [] => [a]
  | b :: l' => if sorts_after a b then b :: sort_insert a l' else a :: l
  end.

(** The stable sort, by insertion from the right.  On a comparison that
    orders the elements consistently every stable sort returns this
    array. *)
Definition sort (l : list (string * Total)) : list (string * Total) :=
  fold_right sort_insert [] l.

Section DerivedViews.

(** [String.prototype.toLowerCase] *)
Variable toLowerCase : string -> string.

Variable expenses : list Expense.t.
Variable searchQuery : string.
Variable filterCategory : string.

Definition matchesSearch (expense : Expense.t) : bool :=
  includes (toLowerCase (Expense.notes expense)) (toLowerCase searchQuery)
  || includes (toLowerCase (Expense.category expense)) (toLowerCase searchQuery).

Definition matchesCategory (expense : Expense.t) : bool :=
  String.eqb filterCategory "all"
  || String.eqb (Expense.category expense) filterCategory.

Definition filteredExpenses : list Expense.t :=
  filter (fun expense => matchesSearch expense && matchesCategory expense) expenses.

Definition totalExpenses : number :=
  fold_left (fun sum e => (sum + Expense.amount e)%float) filteredExpenses 0%float.

Definition categoryTotals : JsObject :=
  fold_left (fun acc e => accumulate acc (Expense.category e) (Expense.amount e))
    filteredExpenses [].

(** [Object.entries(categoryTotals).sort((a, b) => b[1] - a[1])[0]];
    [None] is [undefined]. *)
Definition topCategory : option (string * Total) :=
  hd_error (sort (Object_entries categoryTotals)).

End DerivedViews.

(** ASCII lower case, to run the views on ASCII text. *)
Definition ascii_toLowerCase (s : string) : string :=
  string_of_list_ascii
    (map (fun c => let n := nat_of_ascii c in
                   if ((65 <=? n) && (n <=? 90))%nat then ascii_of_nat (n + 32) else c)
         (list_ascii_of_string s)).

(* ================================================================== *)
(** * 4. Component state *)
(* ================================================================== *)

(** The state variables of [Home] that the ledger and its adapters use, in
    the groups of the source.  The chat, the active tab, the image data URL
    and the DOM refs take no part in the ledger and are left out. *)

Record ManualEntryState : Type := {
  manualAmount : string;
  manualCategory : string;
  manualNotes : string;
  manualLoading : bool;
  manualError : string
}.

Record ExcelUploadState : Type := {
  excelFile : option File.t;
  excelPreview : list PreviewItem.t;
  excelLoading : bool;
  excelError : string
}.

Record ImageUploadState : Type := {
  imageFile : option File.t;
  extractedData : option ExtractedExpense.t;
  imageLoading : bool;
  imageError : string
}.

Record State : Type := {
  expenses : list Expense.t;
  notifications : list Notification.t;
  searchQuery : string;
  filterCategory : string;
  manualEntry : ManualEntryState;
  excelUpload : ExcelUploadState;
  imageUpload : ImageUploadState
}.

(** [useState] initial values *)
Definition initialState : State := {|
  expenses := [];
  notifications := [];
  searchQuery := "";
  filterCategory := "all";
  manualEntry := {| manualAmount := ""; manualCategory := ""; manualNotes := "";
                    manualLoading := false; manualError := "" |};
  excelUpload := {| excelFile := None; excelPreview := []; excelLoading := false;
                    excelError := "" |};
  imageUpload := {| imageFile := None; extractedData := None; imageLoading := false;
                    imageError := "" |}
|}.

(** ** State setters *)

Definition setExpenses (f : list Expense.t -> list Expense.t) (st : State) : State :=
  {| expenses := f (expenses st); notifications := notifications st;
     searchQuery := searchQuery st; filterCategory := filterCategory st;
     manualEntry := manualEntry st; excelUpload := excelUpload st;
     imageUpload := imageUpload st |}.

Definition setNotifications (f : list Notification.t -> list Notification.t)
  (st : State) : State :=
  {| expenses := expenses st; notifications := f (notifications st);
     searchQuery := searchQuery st; filterCategory := filterCategory st;
     manualEntry := manualEntry st; excelUpload := excelUpload st;
     imageUpload := imageUpload st |}.

Definition setSearchQuery (v : string) (st : State) : State :=
  {| expenses := expenses st; notifications := notifications st;
     searchQuery := v; filterCategory := filterCategory st;
     manualEntry := manualEntry st; excelUpload := excelUpload st;
     imageUpload := imageUpload st |}.

Definition setFilterCategory (v : string) (st : State) : State :=
  {| expenses := expenses st; notifications := notifications st;
     searchQuery := searchQuery st; filterCategory := v;
     manualEntry := manualEntry st; excelUpload := excelUpload st;
     imageUpload := imageUpload st |}.

Definition withManualEntry (f : ManualEntryState -> ManualEntryState)
  (st : State) : State :=
  {| expenses := expenses st; notifications := notifications st;
     searchQuery := searchQuery st; filterCategory := filterCategory st;
     manualEntry := f (manualEntry st); excelUpload := excelUpload st;
     imageUpload := imageUpload st |}.

Definition withExcelUpload (f : ExcelUploadState -> ExcelUploadState)
  (st : State) : State :=
  {| expenses := expenses st; notifications := notifications st;
     searchQuery := searchQuery st; filterCategory := filterCategory st;
     manualEntry := manualEntry st; excelUpload := f (excelUpload st);
     imageUpload := imageUpload st |}.

Definition withImageUpload (f : ImageUploadState -> ImageUploadState)
  (st : State) : State :=
  {| expenses := expenses st; notifications := notifications st;
     searchQuery := searchQuery st; filterCategory := filterCategory st;
     manualEntry := manualEntry st; excelUpload := excelUpload st;
     imageUpload := f (imageUpload st) |}.

Definition setManualAmount (v : string) : State -> State :=
  withManualEntry (fun m =>
    {| manualAmount := v; manualCategory := manualCategory m;
       manualNotes := manualNotes m; manualLoading := manualLoading m;
       manualError := manualError m |}).

Definition setManualCategory (v : string) : State -> State :=
  withManualEntry (fun m =>
    {| manualAmount := manualAmount m; manualCategory := v;
       manualNotes := manualNotes m; manualLoading := manualLoading m;
       manualError := manualError m |}).

Definition setManualNotes (v : string) : State -> State :=
  withManualEntry (fun m =>
    {| manualAmount := manualAmount m; manualCategory := manualCategory m;
       manualNotes := v; manualLoading := manualLoading m;
       manualError := manualError m |}).

Definition setManualLoading (v : bool) : State -> State :=
  withManualEntry (fun m =>
    {| manualAmount := manualAmount m; manualCategory := manualCategory m;
       manualNotes := manualNotes m; manualLoading := v;
       manualError := manualError m |}).

Definition setManualError (v : string) : State -> State :=
  withManualEntry (fun m =>
    {| manualAmount := manualAmount m; manualCategory := manualCategory m;
       manualNotes := manualNotes m; manualLoading := manualLoading m;
       manualError := v |}).

Definition setExcelFile (v : option File.t) : State -> State :=
  withExcelUpload (fun x =>
    {| excelFile := v; excelPreview := excelPreview x;
       excelLoading := excelLoading x; excelError := excelError x |}).

Definition setExcelPreview (v : list PreviewItem.t) : State -> State :=
  withExcelUpload (fun x =>
    {| excelFile := excelFile x; excelPreview := v;
       excelLoading := excelLoading x; excelError := excelError x |}).

Definition setExcelLoading (v : bool) : State -> State :=
  withExcelUpload (fun x =>
    {| excelFile := excelFile x; excelPreview := excelPreview x;
       excelLoading := v; excelError := excelError x |}).

Definition setExcelError (v : string) : State -> State :=
  withExcelUpload (fun x =>
    {| excelFile := excelFile x; excelPreview := excelPreview x;
       excelLoading := excelLoading x; excelError := v |}).

Definition setImageFile (v : option File.t) : State -> State :=
  withImageUpload (fun x =>
    {| imageFile := v; extractedData := extractedData x;
       imageLoading := imageLoading x; imageError := imageError x |}).

Definition setExtractedData
  (f : option ExtractedExpense.t -> option ExtractedExpense.t) : State -> State :=
  withImageUpload (fun x =>
    {| imageFile := imageFile x; extractedData := f (extractedData x);
       imageLoading := imageLoading x; imageError := imageError x |}).

Definition setImageLoading (v : bool) : State -> State :=
  withImageUpload (fun x =>
    {| imageFile := imageFile x; extractedData := extractedData x;
       imageLoading := v; imageError := imageError x |}).

Definition setImageError (v : string) : State -> State :=
  withImageUpload (fun x =>
    {| imageFile := imageFile x; extractedData := extractedData x;
       imageLoading := imageLoading x; imageError := v |}).

(** ** The clock *)

(** What the clock answers during one synchronous run of a handler:
    [Date_now n] is the value of the [n]-th evaluation of [Date.now()] that
    the run makes, [Date_toISOString n] that of the [n]-th
    [new Date().toISOString()]. *)
Record Clock : Type := {
  Date_now : nat -> Z;
  Date_toISOString : nat -> string
}.

(** [addNotification(type, message)], at the clock value [now].  The timer
    it starts is the event [NotificationTimeout] below. *)
Definition addNotification (type : NotificationType) (message : string) (now : Z)
  : State -> State :=
  setNotifications (fun prev => (prev ++ [Notification.mk type message (Z_toString now)])%list).

(** The callback of that timer. *)
Definition expireNotification (id : string) : State -> State :=
  setNotifications
    (filter (fun n => negb (String.eqb (Notification.id n) id))).

(** ** The external collaborators *)

(** A network call made by a handler. *)
Inductive Request : Type :=
| callAIAgent (message : string) (agent_id : string) (assets : option (list string))
| uploadFiles (file : File.t).

(** How an awaited promise settles: with a value, or with an exception
    thrown at the [await]. *)
Inductive Settled (A : Type) : Type :=
| Fulfilled (a : A)
| Thrown.
Arguments Fulfilled {A} a.
Arguments Thrown {A}.

(** The value of [callAIAgent]: [{ success, response: { status, message,
    result } }].  [response] and [result] are [None] when they are
    [undefined] or [null]; [R] is the shape the caller expects of [result]. *)
Record AgentResponse (R : Type) : Type := {
  status : string;
  message : option string;
  result : option R
}.
Arguments status {R}.
Arguments message {R}.
Arguments result {R}.

Record AgentResult (R : Type) : Type := {
  success_flag : bool;
  response : option (AgentResponse R)
}.
Arguments success_flag {R}.
Arguments response {R}.

(** The value of [uploadFiles]: [{ success, asset_ids }]. *)
Record UploadResult : Type := {
  upload_success : bool;
  asset_ids : list string
}.

(** [result.success && result.response.status === 'success'];
    [None] when reading [status] of a missing [response] throws. *)
Definition agent_succeeded {R} (r : AgentResult R) : option bool :=
  if success_flag r then
    match response r with
    | Some resp => Some (String.eqb (status resp) "success")
    | None => None
    end
  else Some false.

(** [result.response.message || fallback]; [None] when it throws. *)
Definition response_message {R} (r : AgentResult R) (fallback : string)
  : option string :=
  match response r with
  | Some resp => Some (or_default (message resp) fallback)
  | None => None
  end.

(** The [result] of a spreadsheet reply as [processExcelFile] reads it:
    [expenses] and [items] are [Some l] when the property is an array. *)
Record SpreadsheetResult : Type := {
  expenses_array : option (list PreviewItem.t);
  items_array : option (list PreviewItem.t)
}.

(** The [result] of a receipt reply as [processImage] reads it.  The
    amount, the total and the confidence values are read whatever they are.
    [receipt_confidence] is [Some] when [resultData.confidence] is an
    object, whose three properties are then read; on any other value the
    three reads give [undefined].  The category and the three texts of the
    notes go into the string properties of the candidate and from there
    into the [Expense], and are typed as those: absent, or a string. *)
Record ConfidenceResult : Type := {
  confidence_amount : JsValue;
  confidence_category : JsValue;
  confidence_overall : JsValue
}.

Record ReceiptResult : Type := {
  receipt_amount : JsValue;
  receipt_total : JsValue;
  receipt_category : option string;
  receipt_notes : option string;
  receipt_description : option string;
  receipt_merchant : option string;
  receipt_confidence : option ConfidenceResult
}.

(* ================================================================== *)
(** * 5. Capture adapters *)
(* ================================================================== *)

(** What a handler leaves behind when it stops at an [await]: which
    continuation runs when the promise settles, with its closure. *)
Inductive Pending : Type :=
| AwaitManualAgent (manualAmount manualCategory manualNotes : string)
| AwaitExcelUpload (file : File.t)
| AwaitExcelAgent
| AwaitImageUpload (file : File.t)
| AwaitImageAgent.

(** What the settled promise brings. *)
Inductive Reply : Type :=
| ManualReply (r : Settled (AgentResult unit))
| UploadReply (r : Settled UploadResult)
| SpreadsheetReply (r : Settled (AgentResult SpreadsheetResult))
| ReceiptReply (r : Settled (AgentResult ReceiptResult)).

(** The outcome of a run of a handler: the new state and, when the run
    stopped at an [await], the call it made and the continuation. *)
Definition Run : Type := State * option (Request * Pending).

Definition indexed {A} (l : list A) : list (nat * A) :=
  combine (seq 0 (List.length l)) l.

Section Adapters.

(** [new Intl.NumberFormat('en-IN', ...).format] *)
Variable formatCurrency : number -> string.
(** [Number.prototype.toString] *)
Variable Number_toString : number -> string.

(** ** Manual entry *)

(** [handleManualSubmit], up to the [await]. *)
Definition handleManualSubmit (st : State) : Run :=
  let amount := manualAmount (manualEntry st) in
  let category := manualCategory (manualEntry st) in
  let notes := manualNotes (manualEntry st) in
  let st := setManualError "" st in
  if negb (truthy_string amount) || (parseFloat amount <=? 0)%float then
    (setManualError "Please enter a valid amount greater than 0" st, None)
  else if negb (truthy_string category) then
    (setManualError "Please select a category" st, None)
  else
    let st := setManualLoading true st in
    let message :=
      "Add expense: Amount: ₹" ++ amount ++ ", Category: " ++ category
      ++ ", Notes: " ++ or_string notes "None" in
    (st, Some (callAIAgent message AGENT_ID None,
               AwaitManualAgent amount category notes)).

(** The [catch] block of [handleManualSubmit]. *)
Definition handleManualSubmit_catch (clock : Clock) (st : State) : State :=
  addNotification error "An error occurred" (Date_now clock 0)
    (setManualError "An error occurred while adding expense" st).

(** [handleManualSubmit] from the [await] on; the three strings are the
    form values of the click. *)
Definition handleManualSubmit_settled (amount category notes : string)
  (result : Settled (AgentResult unit)) (clock : Clock) (st : State) : State :=
  let st :=
    match result with
    | Thrown => handleManualSubmit_catch clock st
    | Fulfilled r =>
        match agent_succeeded r with
        | None => handleManualSubmit_catch clock st
        | Some true =>
            let newExpense :=
              Expense.mk (Z_toString (Date_now clock 0)) (parseFloat amount)
                category notes (Date_toISOString clock 0) manual None in
            let st := setExpenses (fun prev => newExpense :: prev) st in
            let st :=
              addNotification success
                ("Expense added: " ++ formatCurrency (Expense.amount newExpense)
                 ++ " for " ++ category)
                (Date_now clock 1) st in
            setManualNotes "" (setManualCategory "" (setManualAmount "" st))
        | Some false =>
            match response_message r "Failed to add expense" with
            | None => handleManualSubmit_catch clock st
            | Some msg =>
                addNotification error "Failed to add expense" (Date_now clock 0)
                  (setManualError msg st)
            end
        end
    end in
  setManualLoading false st.

(** ** Spreadsheet upload *)

(** [processExcelFile(file)], up to the first [await]. *)
Definition processExcelFile (file : File.t) (st : State) : Run :=
  let st := setExcelPreview [] (setExcelError "" (setExcelLoading true st)) in
  (st, Some (uploadFiles file, AwaitExcelUpload file)).

Definition endsWith (s suffix : string) : bool :=
  let n := String.length s in
  let k := String.length suffix in
  (k <=? n)%nat && String.eqb (substring (n - k) k s) suffix.

(** [handleExcelDrop]; [None] when nothing was dropped. *)
Definition handleExcelDrop (dropped : option File.t) (st : State) : Run :=
  match dropped with
  | Some file =>
      if endsWith (File.name file) ".xlsx" || endsWith (File.name file) ".xls"
         || endsWith (File.name file) ".csv"
      then processExcelFile file (setExcelFile (Some file) st)
      else (setExcelError "Please upload a valid Excel or CSV file" st, None)
  | None => (setExcelError "Please upload a valid Excel or CSV file" st, None)
  end.

(** [handleExcelSelect] *)
Definition handleExcelSelect (selected : option File.t) (st : State) : Run :=
  match selected with
  | Some file => processExcelFile file (setExcelFile (Some file) st)
  | None => (st, None)
  end.

(** The [catch] and [finally] blocks of [processExcelFile]. *)
Definition processExcelFile_catch (clock : Clock) (st : State) : State :=
  setExcelLoading false
    (addNotification error "Processing error" (Date_now clock 0)
       (setExcelError "An error occurred while processing file" st)).

(** [processExcelFile] from the settling of [uploadFiles] to the second
    [await]. *)
Definition processExcelFile_uploaded (file : File.t)
  (uploadResult : Settled UploadResult) (clock : Clock) (st : State) : Run :=
  match uploadResult with
  | Thrown => (processExcelFile_catch clock st, None)
  | Fulfilled u =>
      match upload_success u, asset_ids u with
      | true, assetId :: _ =>
          (st, Some (callAIAgent ("Process expense spreadsheet: " ++ File.name file)
                       AGENT_ID (Some [assetId]),
                     AwaitExcelAgent))
      | _, _ =>
          let st := setExcelError "Failed to upload file" st in
          let st := addNotification error "File upload failed" (Date_now clock 0) st in
          let st := setExcelLoading false st in
          (setExcelLoading false st, None)
      end
  end.

(** The sample row of the fallback branch.  Its [status: 'valid'] is read
    nowhere. *)
Definition samplePreview : PreviewItem.t :=
  PreviewItem.mk (NumberValue 50%float) (Some "Food & Dining")
    (Some "Lunch meeting") None.

(** The [previewData] built from [resultData]. *)
Definition previewData (resultData : SpreadsheetResult) : list PreviewItem.t :=
  match expenses_array resultData with
  | Some l => l
  | None =>
      match items_array resultData with
      | Some l => l
      | None => [samplePreview]
      end
  end.

(** [processExcelFile] from the settling of [callAIAgent] on. *)
Definition processExcelFile_settled
  (result : Settled (AgentResult SpreadsheetResult)) (clock : Clock) (st : State)
  : State :=
  match result with
  | Thrown => processExcelFile_catch clock st
  | Fulfilled r =>
      match agent_succeeded r with
      | None => processExcelFile_catch clock st
      | Some true =>
          match response r with
          | Some {| result := Some resultData |} =>
              let preview := previewData resultData in
              let st := setExcelPreview preview st in
              let st :=
                addNotification info
                  ("Found " ++ nat_toString (List.length preview)
                   ++ " expense(s) in file")
                  (Date_now clock 0) st in
              setExcelLoading false st
          | _ => processExcelFile_catch clock st
          end
      | Some false =>
          match response_message r "Failed to process Excel file" with
          | None => processExcelFile_catch clock st
          | Some msg =>
              setExcelLoading false
                (addNotification error "Failed to process file" (Date_now clock 0)
                   (setExcelError msg st))
          end
      end
  end.

(** The [Expense] that [handleExcelConfirm] makes of the item at [index]. *)
Definition expenseOfItem (clock : Clock) (index : nat) (item : PreviewItem.t)
  : Expense.t :=
  Expense.mk
    (Z_toString (Date_now clock index) ++ "-" ++ nat_toString index)
    (or_number (parseFloat_any (PreviewItem.amount item)) 0%float)
    (or_default (PreviewItem.category item) "Other")
    (or_default (PreviewItem.notes item) "")
    (or_default (PreviewItem.date item) (Date_toISOString clock index))
    excel None.

(** [handleExcelConfirm] *)
Definition handleExcelConfirm (clock : Clock) (st : State) : State :=
  let preview := excelPreview (excelUpload st) in
  match preview with
  | [] => st
  | _ =>
      let newExpenses :=
        map (fun '(index, item) => expenseOfItem clock index item) (indexed preview) in
      let st := setExpenses (fun prev => (newExpenses ++ prev)%list) st in
      let st :=
        addNotification success
          ("Imported " ++ nat_toString (List.length newExpenses)
           ++ " expense(s) from Excel")
          (Date_now clock (List.length preview)) st in
      setExcelPreview [] (setExcelFile None st)
  end.

(** [handleExcelCancel] *)
Definition handleExcelCancel (st : State) : State :=
  setExcelError "" (setExcelPreview [] (setExcelFile None st)).

(** ** Receipt image *)

(** [processImage(file)], up to the first [await]. *)
Definition processImage (file : File.t) (st : State) : Run :=
  let st :=
    setExtractedData (fun _ => None)
      (setImageError "" (setImageLoading true (setImageFile (Some file) st))) in
  (st, Some (uploadFiles file, AwaitImageUpload file)).

(** [handleImageDrop]; [None] when nothing was dropped. *)
Definition handleImageDrop (dropped : option File.t) (st : State) : Run :=
  match dropped with
  | Some file =>
      if startsWith (File.type file) "image/" then processImage file st
      else (setImageError "Please upload a valid image file" st, None)
  | None => (setImageError "Please upload a valid image file" st, None)
  end.

(** [handleImageSelect] *)
Definition handleImageSelect (selected : option File.t) (st : State) : Run :=
  match selected with
  | Some file => processImage file st
  | None => (st, None)
  end.

(** The [catch] and [finally] blocks of [processImage]. *)
Definition processImage_catch (clock : Clock) (st : State) : State :=
  setImageLoading false
    (addNotification error "Processing error" (Date_now clock 0)
       (setImageError "An error occurred during image processing" st)).

(** [processImage] from the settling of [uploadFiles] to the second
    [await]. *)
Definition processImage_uploaded (file : File.t)
  (uploadResult : Settled UploadResult) (clock : Clock) (st : State) : Run :=
  match uploadResult with
  | Thrown => (processImage_catch clock st, None)
  | Fulfilled u =>
      match upload_success u, asset_ids u with
      | true, assetId :: _ =>
          (st, Some (callAIAgent
                       ("Extract expense details from receipt image: " ++ File.name file)
                       AGENT_ID (Some [assetId]),
                     AwaitImageAgent))
      | _, _ =>
          let st := setImageError "Failed to upload image" st in
          let st := addNotification error "Image upload failed" (Date_now clock 0) st in
          let st := setImageLoading false st in
          (setImageLoading false st, None)
      end
  end.

(** [v?.toString()] *)
Definition JsValue_toString (v : JsValue) : option string :=
  match v with
  | JsAbsent => None
  | JsBoolean b => Some (if b then "true" else "false")
  | JsNumber x => Some (Number_toString x)
  | JsString s => Some s
  | JsCompound text => Some text
  end.

(** The [extracted] object built from [resultData]: a confidence value
    that is truthy is taken as it is, number or not. *)
Definition extracted (resultData : ReceiptResult) : ExtractedExpense.t :=
  let confidence (field : ConfidenceResult -> JsValue) : JsValue :=
    match receipt_confidence resultData with
    | Some c => field c
    | None => JsAbsent
    end in
  ExtractedExpense.mk
    (or_default (JsValue_toString (receipt_amount resultData))
       (or_default (JsValue_toString (receipt_total resultData)) "0.00"))
    (or_default (receipt_category resultData) "Other")
    (or_default (receipt_notes resultData)
       (or_default (receipt_description resultData)
          (or_default (receipt_merchant resultData) "")))
    (Confidence.mk
       (or_value (confidence confidence_amount) (JsNumber 85%float))
       (or_value (confidence confidence_category) (JsNumber 75%float))
       (or_value (confidence confidence_overall) (JsNumber 80%float))).

(** [processImage] from the settling of [callAIAgent] on. *)
Definition processImage_settled
  (result : Settled (AgentResult ReceiptResult)) (clock : Clock) (st : State)
  : State :=
  match result with
  | Thrown => processImage_catch clock st
  | Fulfilled r =>
      match agent_succeeded r with
      | None => processImage_catch clock st
      | Some true =>
          match response r with
          | Some {| result := Some resultData |} =>
              let st := setExtractedData (fun _ => Some (extracted resultData)) st in
              let st :=
                addNotification success
                  "Successfully extracted expense data from image"
                  (Date_now clock 0) st in
              setImageLoading false st
          | _ => processImage_catch clock st
          end
      | Some false =>
          match response_message r "Failed to extract data from image" with
          | None => processImage_catch clock st
          | Some msg =>
              setImageLoading false
                (addNotification error "OCR extraction failed" (Date_now clock 0)
                   (setImageError msg st))
          end
      end
  end.

(** [handleImageConfirm] *)
Definition handleImageConfirm (clock : Clock) (st : State) : State :=
  match extractedData (imageUpload st) with
  | None => st
  | Some data =>
      let newExpense :=
        Expense.mk (Z_toString (Date_now clock 0))
          (or_number (parseFloat (ExtractedExpense.amount data)) 0%float)
          (ExtractedExpense.category data) (ExtractedExpense.notes data)
          (Date_toISOString clock 0) image
          (Some (Confidence.overall (ExtractedExpense.confidence data))) in
      let st := setExpenses (fun prev => newExpense :: prev) st in
      let st :=
        addNotification success
          ("Added expense from image: " ++ formatCurrency (Expense.amount newExpense))
          (Date_now clock 1) st in
      setExtractedData (fun _ => None) (setImageFile None st)
  end.

(** [handleImageCancel] *)
Definition handleImageCancel (st : State) : State :=
  setImageError "" (setExtractedData (fun _ => None) (setImageFile None st)).

(** The [onChange] handlers of the extracted fields. *)
Definition editExtractedAmount (v : string) : State -> State :=
  setExtractedData (fun prev =>
    match prev with
    | Some d => Some (ExtractedExpense.mk v (ExtractedExpense.category d)
                        (ExtractedExpense.notes d) (ExtractedExpense.confidence d))
    | None => None
    end).

Definition editExtractedCategory (v : string) : State -> State :=
  setExtractedData (fun prev =>
    match prev with
    | Some d => Some (ExtractedExpense.mk (ExtractedExpense.amount d) v
                        (ExtractedExpense.notes d) (ExtractedExpense.confidence d))
    | None => None
    end).

Definition editExtractedNotes (v : string) : State -> State :=
  setExtractedData (fun prev =>
    match prev with
    | Some d => Some (ExtractedExpense.mk (ExtractedExpense.amount d)
                        (ExtractedExpense.category d) v (ExtractedExpense.confidence d))
    | None => None
    end).

(** ** Deletion *)

(** The [onClick] of the delete button of the expense with this [id]. *)
Definition deleteExpense (id : string) : State -> State :=
  setExpenses (filter (fun e => negb (String.eqb (Expense.id e) id))).

End Adapters.

(* ================================================================== *)
(** * 6. The component as a transition system *)
(* ================================================================== *)

(** The state of the page with the promises still outstanding and the log
    of the network calls made so far. *)
Record System : Type := {
  ui : State;
  pending : list Pending;
  calls : list Request
}.

Definition initialSystem : System :=
  {| ui := initialState; pending := []; calls := [] |}.

(** What can happen to the page: a user action on a control, the callback
    of a notification timer, or the settling of an outstanding promise.
    Every action is accepted in every state, which is more than the rendered
    page offers (it hides or disables some controls). *)
Inductive Event : Type :=
| TypeSearchQuery (v : string)
| SelectFilterCategory (v : string)
| TypeManualAmount (v : string)
| SelectManualCategory (v : string)
| TypeManualNotes (v : string)
| ClickAddExpense
| DropExcelFile (file : option File.t)
| SelectExcelFile (file : option File.t)
| ClickConfirmImport (clock : Clock)
| ClickCancelImport
| DropImage (file : option File.t)
| SelectImage (file : option File.t)
| TypeExtractedAmount (v : string)
| SelectExtractedCategory (v : string)
| TypeExtractedNotes (v : string)
| ClickConfirmEntry (clock : Clock)
| ClickCancelImage
| ClickDelete (id : string)
| NotificationTimeout (id : string)
| Settle (n : nat) (reply : Reply) (clock : Clock).

Fixpoint remove_nth {A} (n : nat) (l : list A) : list A :=
  match n, l with
  | _, [] => []
  | O, _ :: l' => l'
  | S n', x :: l' => x :: remove_nth n' l'
  end.

Section EventLoop.

Variable formatCurrency : number -> string.
Variable Number_toString : number -> string.

(** A synchronous change of the page. *)
Definition update (f : State -> State) (sys : System) : System :=
  {| ui := f (ui sys); pending := pending sys; calls := calls sys |}.

(** The end of a run of a handler on the page [sys] whose outstanding
    promises are now [rest]. *)
Definition finish (rest : list Pending) (sys : System) (r : Run) : System :=
  match r with
  | (st, None) => {| ui := st; pending := rest; calls := calls sys |}
  | (st, Some (request, k)) =>
      {| ui := st; pending := (rest ++ [k])%list;
         calls := (calls sys ++ [request])%list |}
  end.

(** The continuation that a settled promise resumes.  A reply of the
    wrong kind for the continuation does not occur; it is dropped. *)
Definition resume (k : Pending) (reply : Reply) (clock : Clock) (st : State)
  : option Run :=
  match k, reply with
  | AwaitManualAgent amount category notes, ManualReply r =>
      Some (handleManualSubmit_settled formatCurrency amount category notes r clock st,
            None)
  | AwaitExcelUpload file, UploadReply r =>
      Some (processExcelFile_uploaded file r clock st)
  | AwaitExcelAgent, SpreadsheetReply r =>
      Some (processExcelFile_settled r clock st, None)
  | AwaitImageUpload file, UploadReply r =>
      Some (processImage_uploaded file r clock st)
  | AwaitImageAgent, ReceiptReply r =>
      Some (processImage_settled Number_toString r clock st, None)
  | _, _ => None
  end.

Definition dispatch (sys : System) (ev : Event) : System :=
  match ev with
  | TypeSearchQuery v => update (setSearchQuery v) sys
  | SelectFilterCategory v => update (setFilterCategory v) sys
  | TypeManualAmount v => update (setManualAmount v) sys
  | SelectManualCategory v => update (setManualCategory v) sys
  | TypeManualNotes v => update (setManualNotes v) sys
  | ClickAddExpense => finish (pending sys) sys (handleManualSubmit (ui sys))
  | DropExcelFile file => finish (pending sys) sys (handleExcelDrop file (ui sys))
  | SelectExcelFile file => finish (pending sys) sys (handleExcelSelect file (ui sys))
  | ClickConfirmImport clock => update (handleExcelConfirm clock) sys
  | ClickCancelImport => update handleExcelCancel sys
  | DropImage file => finish (pending sys) sys (handleImageDrop file (ui sys))
  | SelectImage file => finish (pending sys) sys (handleImageSelect file (ui sys))
  | TypeExtractedAmount v => update (editExtractedAmount v) sys
  | SelectExtractedCategory v => update (editExtractedCategory v) sys
  | TypeExtractedNotes v => update (editExtractedNotes v) sys
  | ClickConfirmEntry clock => update (handleImageConfirm formatCurrency clock) sys
  | ClickCancelImage => update handleImageCancel sys
  | ClickDelete id => update (deleteExpense id) sys
  | NotificationTimeout id => update (expireNotification id) sys
  | Settle n reply clock =>
      match nth_error (pending sys) n with
      | Some k =>
          match resume k reply clock (ui sys) with
          | Some r => finish (remove_nth n (pending sys)) sys r
          | None => sys
          end
      | None => sys
      end
  end.

(** The page after a sequence of events. *)
Definition run_events (sys : System) (events : list Event) : System :=
  fold_left dispatch events sys.

Definition reachable (sys : System) : Prop :=
  exists events, run_events initialSystem events = sys.

End EventLoop.

(** The ledger of a page. *)
Definition ledger (sys : System) : list Expense.t := expenses (ui sys).

(* ================================================================== *)
(** * 7. Notions of the specification *)
(* ================================================================== *)

(** ** Search and filter *)

(** [q] occurs in [s]. *)
Definition Substring (q s : string) : Prop :=
  exists before after, s = before ++ q ++ after.

(** The case-insensitive search over notes and category. *)
Definition SearchMatch (toLowerCase : string -> string) (query : string)
  (e : Expense.t) : Prop :=
  Substring (toLowerCase query) (toLowerCase (Expense.notes e))
  \/ Substring (toLowerCase query) (toLowerCase (Expense.category e)).

(** The exact category filter, ['all'] matching every record. *)
Definition CategoryMatch (filter : string) (e : Expense.t) : Prop :=
  filter = "all" \/ Expense.category e = filter.

Definition Matches (toLowerCase : string -> string) (query filter : string)
  (e : Expense.t) : Prop :=
  SearchMatch toLowerCase query e /\ CategoryMatch filter e.

(** [ExactlyThose P l l']: [l'] holds the elements of [l] that satisfy [P],
    each as often as in [l] and in the order of [l], and nothing else. *)
Inductive ExactlyThose {A : Type} (P : A -> Prop) : list A -> list A -> Prop :=
| exactly_nil : ExactlyThose P [] []
| exactly_keep x l l' : P x -> ExactlyThose P l l' -> ExactlyThose P (x :: l) (x :: l')
| exactly_skip x l l' : ~ P x -> ExactlyThose P l l' -> ExactlyThose P (x :: l) l'.

(** The sum of the amounts of a list of records: added one by one in the
    order of the list, starting from 0. *)
Fixpoint sum_amounts_from (acc : number) (l : list Expense.t) : number :=
  match l with
  | [] => acc
  | e :: l' => sum_amounts_from (acc + Expense.amount e)%float l'
  end.

Definition sum_amounts (l : list Expense.t) : number := sum_amounts_from 0%float l.

(** ** Categories *)

Definition categories (l : list Expense.t) : list string := map Expense.category l.









(** ** Ledger *)

Definition ids (l : list Expense.t) : list string := map Expense.id l.

(** ** Outcomes of the capture adapters *)

(** A manual entry that must be rejected: no amount, an amount that is a
    number not greater than 0, or no category. *)
Definition invalid_manual_entry (amount category : string) : Prop :=
  amount = ""
  \/ (isNaN (parseFloat amount) = false /\ (0 <? parseFloat amount)%float = false)
  \/ category = "".

(** The agent call of an adapter failed: the promise was rejected, the
    reply is not a success, or the reply lacks the [response] (or, where the
    adapter reads it, the [result]) it should carry. *)
Definition agent_failed {R} (reads_result : bool) (r : Settled (AgentResult R)) : bool :=
  match r with
  | Thrown => true
  | Fulfilled a =>
      match agent_succeeded a with
      | Some true =>
          match response a with
          | Some {| result := None |} => reads_result
          | _ => false
          end
      | _ => true
      end
  end.

(** The upload failed: the promise was rejected, or the reply is not a
    success or names no asset. *)
Definition upload_failed (r : Settled UploadResult) : bool :=
  match r with
  | Thrown => true
  | Fulfilled u => negb (upload_success u) || (List.length (asset_ids u) =? 0)%nat
  end.

(** The settling [reply] of the outstanding promise [k] is a failure. *)
Definition failure (k : Pending) (reply : Reply) : bool :=
  match k, reply with
  | AwaitManualAgent _ _ _, ManualReply r => agent_failed false r
  | AwaitExcelUpload _, UploadReply r => upload_failed r
  | AwaitExcelAgent, SpreadsheetReply r => agent_failed true r
  | AwaitImageUpload _, UploadReply r => upload_failed r
  | AwaitImageAgent, ReceiptReply r => agent_failed true r
  | _, _ => false
  end.

(** The inline error of the adapter that [k] belongs to. *)
Definition inline_error (k : Pending) (st : State) : string :=
  match k with
  | AwaitManualAgent _ _ _ => manualError (manualEntry st)
  | AwaitExcelUpload _ | AwaitExcelAgent => excelError (excelUpload st)
  | AwaitImageUpload _ | AwaitImageAgent => imageError (imageUpload st)
  end.

(** The last notification is an error banner with a text. *)
Definition error_banner_shown (st : State) : Prop :=
  exists earlier n,
    notifications st = (earlier ++ [n])%list
    /\ Notification.type n = error /\ Notification.message n <> "".

(** A confirm action with nothing to confirm. *)
Definition confirm_without_candidates (ev : Event) (st : State) : Prop :=
  (exists clock, ev = ClickConfirmImport clock /\ excelPreview (excelUpload st) = [])
  \/ (exists clock, ev = ClickConfirmEntry clock /\ extractedData (imageUpload st) = None).


(** A continuation of [handleManualSubmit] carries an amount that passed
    the validation of the click. *)
Definition validated (k : Pending) : Prop :=
  match k with
  | AwaitManualAgent amount _ _ => (parseFloat amount <=? 0)%float = false
  | _ => True
  end.


(** What a run of a handler that does not touch the ledger and starts no
    manual continuation keeps. *)
Definition harmless (st : State) (r : Run) : Prop :=
  expenses (fst r) = expenses st
  /\ match snd r with
     | Some (_, k) => validated k
     | None => True
     end.

(** ** Notions used in the proofs about [categoryTotals] *)

(** The [reduce] of [categoryTotals] from an accumulator [o]. *)
Definition accumulate_all (l : list Expense.t) (o : JsObject) : JsObject :=
  fold_left (fun acc e => accumulate acc (Expense.category e) (Expense.amount e)) l o.


(** ** Notions used in the proofs about ids *)

(** The id [id] was made from the clock value [t]: by [handleManualSubmit]
    or [handleImageConfirm], or by [handleExcelConfirm] for some index. *)
Definition made_at (t : Z) (id : string) : Prop :=
  id = Z_toString t \/ exists index, id = Z_toString t ++ "-" ++ nat_toString index.

(** The clock values that the event [ev] reads for the ids of the records
    it appends, when it happens on the page [sys]. *)
Definition id_stamps (sys : System) (ev : Event) : list Z :=
  match ev with
  | ClickConfirmImport clock =>
      map (Date_now clock) (seq 0 (List.length (excelPreview (excelUpload (ui sys)))))
  | ClickConfirmEntry clock =>
      match extractedData (imageUpload (ui sys)) with
      | Some _ => [Date_now clock 0]
      | None => []
      end
  | Settle n (ManualReply (Fulfilled r)) clock =>
      match nth_error (pending sys) n, agent_succeeded r with
      | Some (AwaitManualAgent _ _ _), Some true => [Date_now clock 0]
      | _, _ => []
      end
  | _ => []
  end.

Section DistinctClock.

Variable formatCurrency : number -> string.
Variable Number_toString : number -> string.

(** No event of the run reads, for an id, a clock value that an earlier
    event ([used] holds those before the run) has read for an id. *)
Fixpoint distinct_clock (used : list Z) (sys : System) (events : list Event) : Prop :=
  match events with
  | [] => True
  | ev :: rest =>
      (forall t, In t (id_stamps sys ev) -> ~ In t used)
      /\ distinct_clock (id_stamps sys ev ++ used)%list
           (dispatch formatCurrency Number_toString sys ev) rest
  end.

End DistinctClock.

(** The invariant of the page behind the uniqueness of ids. *)
Definition ids_invariant (used : list Z) (sys : System) : Prop :=
  NoDup (ids (ledger sys))
  /\ forall id, In id (ids (ledger sys)) -> exists t, In t used /\ made_at t id.

Definition digits_only (s : string) : bool :=
  forallb is_digit (list_ascii_of_string s).

(* ================================================================== *)
(** * 8. Sample values for the worked examples *)
(* ================================================================== *)

(** A stand-in for the number formatters, which only feed messages. *)
Definition showNumber : number -> string := fun _ => "#".

(** A clock that answers [t] to every [Date.now()]. *)
Definition clockAt (t : Z) : Clock :=
  {| Date_now := fun _ => t;
     Date_toISOString := fun _ => "2023-11-14T22:13:20.000Z" |}.

Definition receiptFile : File.t := File.mk "receipt.png" "image/png".

Definition sheetFile : File.t :=
  File.mk "expenses.xlsx"
    "application/vnd.openxmlformats-officedocument.spreadsheetml.sheet".

Definition uploadOk : Settled UploadResult :=
  Fulfilled {| upload_success := true; asset_ids := ["asset-1"] |}.

(** A successful agent reply with the given [result]. *)
Definition agentOk {R : Type} (res : option R) : Settled (AgentResult R) :=
  Fulfilled {| success_flag := true;
               response := Some {| status := "success"; message := None;
                                   result := res |} |}.

(** An unsuccessful agent reply. *)
Definition agentError {R : Type} : Settled (AgentResult R) :=
  Fulfilled {| success_flag := false;
               response := Some {| status := "error";
                                   message := Some "Agent unavailable";
                                   result := None |} |}.


(** A receipt with an amount and a merchant. *)
Definition lunchReceipt : ReceiptResult :=
  {| receipt_amount := JsString "12.50"; receipt_total := JsAbsent;
     receipt_category := Some "Food & Dining"; receipt_notes := None;
     receipt_description := None; receipt_merchant := Some "Cafe";
     receipt_confidence := None |}.


(** The form filled in with 20 for 'Travel'. *)
Definition filledForm : State :=
  setManualCategory "Travel" (setManualAmount "20" initialState).

(** An image is uploaded and read, and the page shows the extracted
    candidate. *)
Definition extractReceipt (r : ReceiptResult) : list Event :=
  [ SelectImage (Some receiptFile);
    Settle 0 (UploadReply uploadOk) (clockAt 1700000000000);
    Settle 0 (ReceiptReply (agentOk (Some r))) (clockAt 1700000001000) ].

(** A manual entry is submitted while an extracted receipt waits for its
    confirmation; the agent's answer to the manual entry arrives, and the
    user confirms the receipt, within the same millisecond [t]. *)
Definition collidingAppends (t : Z) : list Event :=
  (extractReceipt lunchReceipt
   ++ [ TypeManualAmount "20"; SelectManualCategory "Travel"; ClickAddExpense;
        Settle 0 (ManualReply (agentOk None)) (clockAt t);
        ClickConfirmEntry (clockAt t) ])%list.


(** Three records over two categories. *)
Definition smallLedger : list Expense.t :=
  [ Expense.mk "1700000000003" 30%float "Travel" "taxi" "2023-11-14T22:13:23.000Z" manual None;
    Expense.mk "1700000000002" 50%float "Food & Dining" "Lunch meeting" "2023-11-14T22:13:22.000Z" excel None;
    Expense.mk "1700000000001" 25.5%float "Travel" "train" "2023-11-14T22:13:21.000Z" image (Some (JsNumber 80%float)) ].

(** The form filled in with -5 for 'Travel'. *)
Definition negativeForm : State :=
  setManualCategory "Travel" (setManualAmount "-5" initialState).

(** A page showing [st] with nothing outstanding. *)
Definition pageOf (st : State) : System :=
  {| ui := st; pending := []; calls := [] |}.

(** The page after the filled form was submitted: the agent call is
    outstanding. *)
Definition submittedPage : System :=
  dispatch showNumber showNumber (pageOf filledForm) ClickAddExpense.





(* ================================================================== *)
(** * 8a. What the page renders, and which controls it offers *)
(* ================================================================== *)

(** ** Cells of the preview table *)

Section PreviewTable.

Variable formatCurrency : number -> string.

(** [formatCurrency(parseFloat(item.amount) || 0)] *)
Definition previewAmountCell (item : PreviewItem.t) : string :=
  formatCurrency (or_number (parseFloat_any (PreviewItem.amount item)) 0%float).

(** [item.category || 'Other'] *)
Definition previewCategoryCell (item : PreviewItem.t) : string :=
  or_default (PreviewItem.category item) "Other".

(** [item.notes || '-'] *)
Definition previewNotesCell (item : PreviewItem.t) : string :=
  or_default (PreviewItem.notes item) "-".

End PreviewTable.

(** ** Conditional parts of the page *)

(** [topCategory ? topCategory[0] : 'None'] *)
Definition topCategoryLabel (top : option (string * Total)) : string :=
  match top with
  | Some (k, _) => k
  | None => "None"
  end.

(** The inline error of the spreadsheet tab is inside the branch drawn
    when a file is selected: [!excelFile ? dropzone : (... excelError &&
    <Alert> ...)]. *)
Definition excelErrorShown (st : State) : bool :=
  match excelFile (excelUpload st) with
  | Some _ => truthy_string (excelError (excelUpload st))
  | None => false
  end.

(** The same for the image tab. *)
Definition imageErrorShown (st : State) : bool :=
  match imageFile (imageUpload st) with
  | Some _ => truthy_string (imageError (imageUpload st))
  | None => false
  end.

(** [expense.confidence && <Badge>]: the badge is drawn for a confidence
    that is truthy. *)
Definition confidenceBadgeShown (e : Expense.t) : bool :=
  match Expense.confidence e with
  | Some c => truthy_value c
  | None => false
  end.

(** ** Controls *)

Section Offered.

Variable toLowerCase : string -> string.

(** The user actions that the rendered page offers in the state [st]:
    'Add Expense' is disabled while [manualLoading]; the drop zones are
    drawn while no file is selected and the file header with its cancel
    button while one is; the confirm and cancel buttons of a preview and
    the fields of an extracted candidate are drawn while there is one; a
    delete button is drawn for each record of the filtered list.  The
    tabs can be switched at any time, and the image cancel button is taken
    as drawn whenever an image is selected. *)
Definition offered (st : State) (ev : Event) : bool :=
  match ev with
  | TypeSearchQuery _ | SelectFilterCategory _ => true
  | TypeManualAmount _ | SelectManualCategory _ | TypeManualNotes _ => true
  | ClickAddExpense => negb (manualLoading (manualEntry st))
  | DropExcelFile _ | SelectExcelFile _ =>
      match excelFile (excelUpload st) with Some _ => false | None => true end
  | ClickConfirmImport _ =>
      match excelFile (excelUpload st), excelPreview (excelUpload st) with
      | Some _, _ :: _ => true
      | _, _ => false
      end
  | ClickCancelImport =>
      match excelFile (excelUpload st) with Some _ => true | None => false end
  | DropImage _ | SelectImage _ =>
      match imageFile (imageUpload st) with Some _ => false | None => true end
  | TypeExtractedAmount _ | SelectExtractedCategory _ | TypeExtractedNotes _
  | ClickConfirmEntry _ =>
      match imageFile (imageUpload st), extractedData (imageUpload st) with
      | Some _, Some _ => true
      | _, _ => false
      end
  | ClickCancelImage =>
      match imageFile (imageUpload st) with Some _ => true | None => false end
  | ClickDelete id =>
      existsb (fun e => String.eqb (Expense.id e) id)
        (filteredExpenses toLowerCase (expenses st) (searchQuery st) (filterCategory st))
  | NotificationTimeout _ => true
  | Settle _ _ _ => true
  end.

Variable formatCurrency : number -> string.
Variable Number_toString : number -> string.

(** A run in which every event is offered when it happens. *)
Fixpoint offered_run (sys : System) (events : list Event) : Prop :=
  match events with
  | [] => True
  | ev :: rest =>
      offered (ui sys) ev = true
      /\ offered_run (dispatch formatCurrency Number_toString sys ev) rest
  end.

End Offered.

(** The outstanding agent calls of the manual form. *)
Definition manual_calls_outstanding (sys : System) : nat :=
  List.length
    (filter (fun k => match k with AwaitManualAgent _ _ _ => true | _ => false end)
       (pending sys)).

(* ================================================================== *)
(** * 8b. The chat *)
(* ================================================================== *)

Inductive Role : Type := user | assistant.

(** The [content] is declared a string; the assistant's message takes it
    from the reply as it is, so it is kept as the value it is. *)
Module ChatMessage.
Record t : Type := mk {
  role : Role;
  content : JsValue;
  timestamp : string
}.
End ChatMessage.

(** The chat state variables of [Home]. *)
Record ChatState : Type := {
  chatOpen : bool;
  chatMessages : list ChatMessage.t;
  chatInput : string;
  chatLoading : bool
}.

Definition initialChat : ChatState :=
  {| chatOpen := false; chatMessages := []; chatInput := ""; chatLoading := false |}.

Definition setChatMessages (f : list ChatMessage.t -> list ChatMessage.t)
  (c : ChatState) : ChatState :=
  {| chatOpen := chatOpen c; chatMessages := f (chatMessages c);
     chatInput := chatInput c; chatLoading := chatLoading c |}.

Definition setChatInput (v : string) (c : ChatState) : ChatState :=
  {| chatOpen := chatOpen c; chatMessages := chatMessages c;
     chatInput := v; chatLoading := chatLoading c |}.

Definition setChatLoading (v : bool) (c : ChatState) : ChatState :=
  {| chatOpen := chatOpen c; chatMessages := chatMessages c;
     chatInput := chatInput c; chatLoading := v |}.

(** [s.trimEnd()]: the white space at the end goes. *)
Fixpoint trimEnd (s : string) : string :=
  match s with
  | EmptyString => EmptyString
  | String c s' => if truthy_string (trimStart s) then String c (trimEnd s') else EmptyString
  end.

(** [s.trim()] *)
Definition trim (s : string) : string := trimEnd (trimStart s).

(** The string is made of white space only. *)
Inductive WhiteSpaceOnly : string -> Prop :=
| blank_empty : WhiteSpaceOnly ""
| blank_more (s s' : string) :
    white_space_prefix s = Some s' -> WhiteSpaceOnly s' -> WhiteSpaceOnly s.

(** The [result] of a chat reply as [handleChatSend] reads it: the three
    properties, whatever they are. *)
Record ChatResult : Type := {
  chat_answer : JsValue;
  chat_response : JsValue;
  chat_message : JsValue
}.

Section Chat.

Variable formatCurrency : number -> string.

(** The [expenseContext] of a question, from the ledger of the click. *)
Definition expenseContext (expenses : list Expense.t) : string :=
  match expenses with
  | [] => ""
  | _ =>
      String (ascii_of_nat 10) (String (ascii_of_nat 10) "Context: I have ")
      ++ nat_toString (List.length expenses) ++ " expenses totaling "
      ++ formatCurrency
           (fold_left (fun sum e => (sum + Expense.amount e)%float) expenses 0%float)
      ++ "."
  end.

(** [handleChatSend], up to the [await]; [None] as second component when it
    returns before making the call. *)
Definition handleChatSend (expenses : list Expense.t) (clock : Clock) (c : ChatState)
  : ChatState * option Request :=
  if negb (truthy_string (trim (chatInput c))) then (c, None)
  else
    let userMessage :=
      ChatMessage.mk user (JsString (chatInput c)) (Date_toISOString clock 0) in
    let c' :=
      setChatLoading true
        (setChatInput "" (setChatMessages (fun prev => (prev ++ [userMessage])%list) c)) in
    (c', Some (callAIAgent (chatInput c ++ expenseContext expenses) AGENT_ID None)).

(** [result.response.result.answer || result.response.result.response ||
    result.response.result.message || result.response.message ||
    'Analysis complete.']: the first of them that is truthy, as it is;
    [None] when reading it throws. *)
Definition responseContent (r : AgentResult ChatResult) : option JsValue :=
  match agent_succeeded r with
  | None => None
  | Some false => Some (JsString "Sorry, I could not process your request.")
  | Some true =>
      match response r with
      | Some {| message := m; result := Some res |} =>
          Some (or_value (chat_answer res)
                  (or_value (chat_response res)
                     (or_value (chat_message res)
                        (or_value
                           match m with
                           | Some text => JsString text
                           | None => JsAbsent
                           end
                           (JsString "Analysis complete.")))))
      | _ => None
      end
  end.

(** [handleChatSend] from the [await] on. *)
Definition handleChatSend_settled (result : Settled (AgentResult ChatResult))
  (clock : Clock) (c : ChatState) : ChatState :=
  let reply :=
    match result with
    | Fulfilled r =>
        match responseContent r with
        | Some v => v
        | None => JsString "An error occurred while processing your request."
        end
    | Thrown => JsString "An error occurred while processing your request."
    end in
  setChatLoading false
    (setChatMessages
       (fun prev => (prev ++ [ChatMessage.mk assistant reply (Date_toISOString clock 0)])%list)
       c).

End Chat.

(** The send button is [disabled={chatLoading || !chatInput.trim()}]. *)
Definition sendDisabled (c : ChatState) : bool :=
  chatLoading c || negb (truthy_string (trim (chatInput c))).

(* ================================================================== *)
(** * 8c. Invariants of the page, and a sample run *)
(* ================================================================== *)

(** What the data model says of the confidence of a record: an image
    record carries one that the history list draws as a badge, any other
    record carries none. *)
Definition confidence_of_source (e : Expense.t) : Prop :=
  match Expense.source e with
  | image => confidenceBadgeShown e = true
  | _ => Expense.confidence e = None
  end.

(** The overall confidence of the extracted candidate, when there is one,
    is truthy. *)
Definition candidate_confident (st : State) : Prop :=
  match extractedData (imageUpload st) with
  | Some data =>
      truthy_value (Confidence.overall (ExtractedExpense.confidence data)) = true
  | None => True
  end.

Definition confidence_invariant (st : State) : Prop :=
  Forall confidence_of_source (expenses st) /\ candidate_confident st.

(** The manual form shows its loading state exactly while its agent call
    is outstanding. *)
Definition manual_invariant (sys : System) : Prop :=
  manual_calls_outstanding sys
  = if manualLoading (manualEntry (ui sys)) then 1 else 0.

(** A receipt is extracted, a manual entry is accepted at the clock value
    [t], and the receipt is confirmed at the clock value [t']. *)
Definition separateAppends (t t' : Z) : list Event :=
  (extractReceipt lunchReceipt
   ++ [ TypeManualAmount "20"; SelectManualCategory "Travel"; ClickAddExpense;
        Settle 0 (ManualReply (agentOk None)) (clockAt t);
        ClickConfirmEntry (clockAt t') ])%list.

(** A file that is neither a spreadsheet nor an image. *)
Definition textFile : File.t := File.mk "notes.txt" "text/plain".

(** A successful reply whose [expenses] array is empty. *)
Definition emptySheet : SpreadsheetResult :=
  {| expenses_array := Some []; items_array := None |}.

Definition emptySheetResponse : AgentResponse SpreadsheetResult :=
  {| status := "success"; message := None; result := Some emptySheet |}.

Definition emptySheetReply : AgentResult SpreadsheetResult :=
  {| success_flag := true; response := Some emptySheetResponse |}.

(** A page whose ledger is [smallLedger]. *)
Definition ledgerPage : System :=
  pageOf (setExpenses (fun _ => smallLedger) initialState).

(** The first record of [smallLedger]. *)
Definition taxiRecord : Expense.t :=
  Expense.mk "1700000000003" 30%float "Travel" "taxi" "2023-11-14T22:13:23.000Z"
    manual None.

(** The record that [separateAppends] makes from the manual entry at the
    clock value 1700000002000. *)
Definition manualRecord : Expense.t :=
  Expense.mk "1700000002000" 20%float "Travel" "" "2023-11-14T22:13:20.000Z"
    manual None.

(** The chat with three spaces, and with a question, in the input. *)
Definition blankChat : ChatState := setChatInput "   " initialChat.

Definition askedChat : ChatState := setChatInput "How much did I spend?" initialChat.

(* ================================================================== *)
(** * 9. Properties of binary64 numbers *)
(* ================================================================== *)

Section Binary64.

Local Open Scope Z_scope.

Lemma digits2_pos_size (m : positive) : digits2_pos m = Pos.size m.
Proof. induction m; simpl; congruence. Qed.

Lemma digits2_pos_bounds (m : positive) :
Zpos m < 2 ^ Zpos (digits2_pos m) /\ 2 ^ Zpos (digits2_pos m) <= 2 * Zpos m.
Proof.
rewrite digits2_pos_size. split.
- pose proof (Pos.size_gt m) as H. apply Pos2Z.pos_lt_pos in H.
  now rewrite Pos2Z.inj_pow in H.
- pose proof (Pos.size_le m) as H. apply Pos2Z.pos_le_pos in H.
  now rewrite Pos2Z.inj_pow in H.
Qed.

Lemma bounded_facts (m : positive) (e : Z) :
bounded prec emax m e = true ->
-1074 <= e <= 971 /\ Zpos m < 2 ^ 53 /\ (-1074 < e -> 2 ^ 52 <= Zpos m).
Proof.
unfold bounded, canonical_mantissa, fexp, emin, prec, emax.
rewrite andb_true_iff, Z.eqb_eq, Z.leb_le.
intros [Hc He].
destruct (digits2_pos_bounds m) as [Hlt Hge].
set (d := Zpos (digits2_pos m)) in *.
assert (Hd : 0 < d) by (unfold d; lia).
split; [lia |]. split.
- assert (d <= 53) by lia.
  apply Z.lt_le_trans with (2 ^ d); [exact Hlt |].
  apply Z.pow_le_mono_r; lia.
- intros Hgt. assert (d = 53) by lia.
  rewrite H in Hge. change (2 ^ 53) with (2 * 2 ^ 52) in Hge. lia.
Qed.

Lemma scaled_finite_bounds (s : bool) (m : positive) (e : Z) :
bounded prec emax m e = true ->
0 < Zpos m * 2 ^ (e + 1074) < 2 ^ 2098.
Proof.
intros H. apply bounded_facts in H. destruct H as [He [Hm _]].
assert (Hp : 0 < 2 ^ (e + 1074)) by (apply Z.pow_pos_nonneg; lia).
split; [lia |].
assert (Hq : 2 ^ (e + 1074) <= 2 ^ 2045) by (apply Z.pow_le_mono_r; lia).
change (2 ^ 2098) with (2 ^ 53 * 2 ^ 2045).
apply Z.lt_le_trans with (2 ^ 53 * 2 ^ (e + 1074)).
- apply Z.mul_lt_mono_pos_r; assumption.
- apply Z.mul_le_mono_nonneg_l; [lia | assumption].
Qed.

Lemma scaled_finite_order (m1 m2 : positive) (e1 e2 : Z) :
bounded prec emax m1 e1 = true -> bounded prec emax m2 e2 = true ->
e1 < e2 ->
Zpos m1 * 2 ^ (e1 + 1074) < Zpos m2 * 2 ^ (e2 + 1074).
Proof.
intros H1 H2 Hlt.
apply bounded_facts in H1, H2.
destruct H1 as [He1 [Hm1 _]], H2 as [He2 [_ Hm2]].
assert (Hx : -1074 < e2) by (clear - He1 Hlt; lia). specialize (Hm2 Hx).
replace (e2 + 1074) with ((e2 - e1) + (e1 + 1074)) by lia.
rewrite (Z.pow_add_r 2 (e2 - e1) (e1 + 1074)) by lia.
assert (Hp : 0 < 2 ^ (e1 + 1074)) by (apply Z.pow_pos_nonneg; lia).
assert (Hq : 2 ^ 1 <= 2 ^ (e2 - e1)) by (apply Z.pow_le_mono_r; lia).
change (2 ^ 1) with 2 in Hq.
rewrite Z.mul_assoc.
apply Z.mul_lt_mono_pos_r; [assumption |].
change (2 ^ 53) with (2 ^ 52 * 2) in Hm1.
nia.
Qed.

Lemma scaled_same_exponent (m1 m2 : positive) (e : Z) :
-1074 <= e ->
(Zpos m1 * 2 ^ (e + 1074) ?= Zpos m2 * 2 ^ (e + 1074)) = Pos.compare_cont Eq m1 m2.
Proof.
intros He.
assert (Hp : 0 < 2 ^ (e + 1074)) by (apply Z.pow_pos_nonneg; lia).
change (Pos.compare_cont Eq m1 m2) with (Zpos m1 ?= Zpos m2).
destruct (Z.compare_spec (Zpos m1) (Zpos m2)) as [H | H | H].
- rewrite H. apply Z.compare_refl.
- apply Z.compare_lt_iff. apply Z.mul_lt_mono_pos_r; assumption.
- apply Z.compare_gt_iff. apply Z.mul_lt_mono_pos_r; assumption.
Qed.

(** On valid numbers other than NaN, the comparison of two numbers is the
  comparison of their scaled values. *)
Lemma SFcompare_scaled (x y : spec_float) :
valid_binary x = true -> valid_binary y = true ->
x <> S754_nan -> y <> S754_nan ->
SFcompare x y = Some (scaled x ?= scaled y).
Proof.
intros Vx Vy Nx Ny.
destruct x as [sx | sx | | sx mx ex], y as [sy | sy | | sy my ey];
  try congruence; simpl in Vx, Vy.
all: try (pose proof (scaled_finite_bounds sx mx ex Vx) as Bx).
all: try (pose proof (scaled_finite_bounds sy my ey Vy) as By).
all: assert (Hinf : 0 < 2 ^ 2098) by (apply Z.pow_pos_nonneg; lia).
all: unfold scaled, SFcompare, cond_Zopp.
all: try (destruct sx); try (destruct sy); try reflexivity.
all: try (f_equal; symmetry;
          first [ apply Z.compare_lt_iff; lia | apply Z.compare_gt_iff; lia ]).
- (* both negative *)
  f_equal.
  destruct (Z.compare_spec ex ey) as [E | E | E].
  + subst ey. rewrite Z.compare_opp.
    rewrite scaled_same_exponent by (apply bounded_facts in Vx; lia).
    rewrite (ZC4 my mx). reflexivity.
  + symmetry. apply Z.compare_gt_iff.
    pose proof (scaled_finite_order mx my ex ey Vx Vy E). lia.
  + symmetry. apply Z.compare_lt_iff.
    pose proof (scaled_finite_order my mx ey ex Vy Vx E). lia.
- f_equal.
  destruct (Z.compare_spec ex ey) as [E | E | E].
  + subst ey. symmetry. apply scaled_same_exponent.
    apply bounded_facts in Vx; lia.
  + symmetry. apply Z.compare_lt_iff.
    exact (scaled_finite_order mx my ex ey Vx Vy E).
  + symmetry. apply Z.compare_gt_iff.
    exact (scaled_finite_order my mx ey ex Vy Vx E).
Qed.

(** ** The sign of a difference *)

Lemma shr_1_m (r : shr_record) : 0 <= shr_m r -> shr_m (shr_1 r) = shr_m r / 2.
Proof.
destruct r as [m b s]; simpl. intros Hm.
destruct m as [|p|p]; [reflexivity | | lia].
destruct p as [p|p|]; simpl shr_m.
- rewrite Pos2Z.inj_xI. apply Z.div_unique with 1; lia.
- rewrite Pos2Z.inj_xO. apply Z.div_unique with 0; lia.
- reflexivity.
Qed.

Lemma iter_pos_shr_m (p : positive) (r : shr_record) :
0 <= shr_m r -> shr_m (iter_pos shr_1 p r) = shr_m r / 2 ^ Zpos p.
Proof.
revert r; induction p as [p IH | p IH |]; intros r Hr; simpl iter_pos.
- assert (H1 : 0 <= shr_m (shr_1 r)) by (rewrite shr_1_m by assumption; apply Z.div_pos; lia).
  assert (H2 : 0 <= shr_m (iter_pos shr_1 p (shr_1 r)))
    by (rewrite IH by assumption; apply Z.div_pos; [assumption | apply Z.pow_pos_nonneg; lia]).
  rewrite IH, IH, shr_1_m by assumption.
  assert (Hp : 0 < 2 ^ Zpos p) by (apply Z.pow_pos_nonneg; lia).
  rewrite !Z.div_div by lia.
  f_equal.
  replace (Zpos p~1) with (1 + Zpos p + Zpos p) by lia.
  rewrite !Z.pow_add_r by lia. change (2 ^ 1) with 2. lia.
- assert (H2 : 0 <= shr_m (iter_pos shr_1 p r))
    by (rewrite IH by assumption; apply Z.div_pos; [assumption | apply Z.pow_pos_nonneg; lia]).
  rewrite IH, IH by assumption.
  assert (Hp : 0 < 2 ^ Zpos p) by (apply Z.pow_pos_nonneg; lia).
  rewrite !Z.div_div by lia.
  f_equal.
  replace (Zpos p~0) with (Zpos p + Zpos p) by lia.
  rewrite !Z.pow_add_r by lia. reflexivity.
- rewrite shr_1_m by assumption. reflexivity.
Qed.

Lemma shr_record_of_loc_m (m : Z) (l : location) : shr_m (shr_record_of_loc m l) = m.
Proof. destruct l as [|[ | | ]]; reflexivity. Qed.

(** Shifting a positive mantissa to its canonical exponent leaves it
  positive: no number above the least exponent is shifted to nothing. *)
Lemma shr_fexp_positive (m e : Z) (l : location) :
0 < m -> -1074 <= e ->
0 < shr_m (fst (shr_fexp prec emax m e l)) /\ -1074 <= snd (shr_fexp prec emax m e l).
Proof.
intros Hm He. unfold shr_fexp, shr, fexp, emin, prec, emax.
destruct m as [|p|p]; try lia. simpl Zdigits2.
destruct (digits2_pos_bounds p) as [Hlt Hge].
set (d := Zpos (digits2_pos p)) in *.
destruct (Z.max (d + e - 53) (3 - 1024 - 53) - e) as [|n|n] eqn:En; simpl fst; simpl snd.
- rewrite shr_record_of_loc_m. lia.
- split; [| lia].
  rewrite iter_pos_shr_m by (rewrite shr_record_of_loc_m; lia).
  rewrite shr_record_of_loc_m.
  assert (Hn : Zpos n = d - 53) by lia.
  assert (Hpn : 0 < 2 ^ Zpos n) by (apply Z.pow_pos_nonneg; lia).
  apply Z.div_str_pos. split; [assumption |].
  assert (Hd : 2 ^ d = 2 ^ Zpos n * 2 ^ 53)
    by (rewrite <- Z.pow_add_r by lia; f_equal; lia).
  rewrite Hd in Hge.
  change (2 ^ 53) with (2 * 2 ^ 52) in Hge. nia.
- rewrite shr_record_of_loc_m. lia.
Qed.

Lemma round_nearest_even_ge (m : Z) (l : location) : m <= round_nearest_even m l.
Proof.
destruct l as [|[ | | ]]; simpl; try lia. destruct (Z.even m); lia.
Qed.

Lemma binary_round_aux_positive (m e : Z) (l : location) :
0 < m -> -1074 <= e ->
SFltb (S754_zero false) (binary_round_aux prec emax false m e l) = true.
Proof.
intros Hm He. unfold binary_round_aux.
destruct (shr_fexp_positive m e l Hm He) as [H1 H2].
destruct (shr_fexp prec emax m e l) as [mrs' e']. simpl in H1, H2.
pose proof (round_nearest_even_ge (shr_m mrs') (loc_of_shr_record mrs')) as Hr.
set (m2 := round_nearest_even (shr_m mrs') (loc_of_shr_record mrs')) in *.
destruct (shr_fexp_positive m2 e' loc_Exact ltac:(lia) H2) as [H3 H4].
destruct (shr_fexp prec emax m2 e' loc_Exact) as [mrs'' e'']. simpl in H3, H4.
destruct (shr_m mrs'') as [|q|q]; try lia.
destruct (e'' <=? emax - prec)%Z; reflexivity.
Qed.

Lemma binary_round_aux_negative (m e : Z) (l : location) :
SFltb (S754_zero false) (binary_round_aux prec emax true m e l) = false.
Proof.
unfold binary_round_aux.
destruct (shr_fexp prec emax m e l) as [mrs' e'].
destruct (shr_fexp prec emax _ e' loc_Exact) as [mrs'' e''].
destruct (shr_m mrs'') as [|q|q]; try reflexivity.
destruct (e'' <=? emax - prec)%Z; reflexivity.
Qed.

Lemma shl_align_snd_ge (m : positive) (e e' : Z) :
-1074 <= e -> -1074 <= e' -> -1074 <= snd (shl_align m e e').
Proof.
intros. unfold shl_align. destruct (e' - e); simpl; lia.
Qed.

Lemma fexp_ge (z : Z) : -1074 <= fexp prec emax z.
Proof. unfold fexp, emin, prec, emax. lia. Qed.

(** The sign of a rounded integer multiple of a power of two, at an
  exponent the format has: positive exactly when the integer is. *)
Lemma binary_normalize_positive (D e : Z) :
-1074 <= e ->
SFltb (S754_zero false) (binary_normalize prec emax D e false) = (0 <? D)%Z.
Proof.
intros He. unfold binary_normalize, binary_round.
destruct D as [|p|p].
- reflexivity.
- pose proof (shl_align_snd_ge p e (fexp prec emax (Zpos (digits2_pos p) + e)) He (fexp_ge _)) as Hs.
  destruct (shl_align p e _) as [mz ez]. simpl in Hs.
  apply binary_round_aux_positive; lia.
- destruct (shl_align p e _) as [mz ez].
  apply binary_round_aux_negative.
Qed.

Lemma shl_align_fst (m : positive) (e e' : Z) :
e' <= e -> Zpos (fst (shl_align m e e')) = Zpos m * 2 ^ (e - e').
Proof.
intros H. unfold shl_align.
destruct (e' - e) as [|d|d] eqn:E; simpl fst.
- replace (e - e') with 0 by lia. lia.
- lia.
- change (Pos.iter xO m d) with (shift_pos d m).
  rewrite shift_pos_correct, Z.pow_pos_fold.
  replace (e - e') with (Zpos d) by lia. lia.
Qed.

Lemma aligned_scaled (s : bool) (m : positive) (e ez : Z) :
-1074 <= ez -> ez <= e ->
cond_Zopp s (Zpos m * 2 ^ (e + 1074))
= cond_Zopp s (Zpos (fst (shl_align m e ez))) * 2 ^ (ez + 1074).
Proof.
intros H1 H2. rewrite shl_align_fst by assumption.
replace (e + 1074) with ((e - ez) + (ez + 1074)) by lia.
rewrite Z.pow_add_r by lia.
destruct s; unfold cond_Zopp; ring.
Qed.

Lemma ltb_scale (u v P : Z) : 0 < P -> (0 <? v - u) = (u * P <? v * P).
Proof.
  intros HP. destruct (Z.ltb_spec 0 (v - u)); symmetry.
  - apply Z.ltb_lt. apply Z.mul_lt_mono_pos_r; lia.
  - apply Z.ltb_ge. apply Z.mul_le_mono_nonneg_r; lia.
Qed.

(** On valid numbers other than NaN, a difference [y - x] is positive
    exactly when [x] is below [y]. *)
Lemma SFsub_positive (x y : spec_float) :
  valid_binary x = true -> valid_binary y = true ->
  x <> S754_nan -> y <> S754_nan ->
  SFltb (S754_zero false) (SFsub prec emax y x) = (scaled x <? scaled y)%Z.
Proof.
  intros Vx Vy Nx Ny.
  destruct x as [sx | sx | | sx mx ex], y as [sy | sy | | sy my ey];
    try congruence; simpl in Vx, Vy.
  9: { (* two finite numbers *)
    pose proof (bounded_facts mx ex Vx) as [Hex _].
    pose proof (bounded_facts my ey Vy) as [Hey _].
    unfold SFsub, scaled.
    rewrite binary_normalize_positive by lia.
    rewrite (aligned_scaled sx mx ex (Z.min ey ex)) by lia.
    rewrite (aligned_scaled sy my ey (Z.min ey ex)) by lia.
    apply ltb_scale. apply Z.pow_pos_nonneg; lia. }
  all: try (pose proof (scaled_finite_bounds sx mx ex Vx) as Bx).
  all: try (pose proof (scaled_finite_bounds sy my ey Vy) as By).
  all: assert (Hinf : 0 < 2 ^ 2098) by (apply Z.pow_pos_nonneg; lia).
  all: unfold scaled, cond_Zopp.
  all: try (destruct sx); try (destruct sy); try reflexivity.
  all: simpl SFsub; unfold SFltb, SFcompare; symmetry;
       first [ apply Z.ltb_lt; lia | apply Z.ltb_ge; lia ].
Qed.

(** ** The same on primitive numbers *)

Lemma SFcompare_refl (x : spec_float) : x <> S754_nan -> SFcompare x x = Some Eq.
Proof.
destruct x as [s | s | | s m e]; try congruence; intros _; simpl.
- reflexivity.
- now destruct s.
- rewrite Z.compare_refl, Pcompare_refl. now destruct s.
Qed.

Lemma isNaN_false (x : number) : isNaN x = false <-> Prim2SF x <> S754_nan.
Proof.
unfold isNaN. rewrite eqb_spec. unfold SFeqb. split.
- intros H E. rewrite E in H. discriminate.
- intros H. now rewrite SFcompare_refl.
Qed.

Lemma compare_rank (x y : number) :
isNaN x = false -> isNaN y = false ->
SFcompare (Prim2SF x) (Prim2SF y) = Some (rank x ?= rank y).
Proof.
intros Hx Hy. apply SFcompare_scaled;
  first [ apply Prim2SF_valid | now apply isNaN_false ].
Qed.

Lemma ltb_rank (x y : number) :
isNaN x = false -> isNaN y = false -> (x <? y)%float = (rank x <? rank y)%Z.
Proof.
intros Hx Hy. rewrite ltb_spec. unfold SFltb.
rewrite compare_rank by assumption. unfold Z.ltb.
now destruct (rank x ?= rank y).
Qed.

Lemma leb_rank (x y : number) :
isNaN x = false -> isNaN y = false -> (x <=? y)%float = (rank x <=? rank y)%Z.
Proof.
intros Hx Hy. rewrite leb_spec. unfold SFleb.
rewrite compare_rank by assumption. unfold Z.leb.
now destruct (rank x ?= rank y).
Qed.

Lemma eqb_rank (x y : number) :
isNaN x = false -> isNaN y = false -> (x =? y)%float = (rank x =? rank y)%Z.
Proof.
intros Hx Hy. rewrite eqb_spec. unfold SFeqb.
rewrite compare_rank by assumption.
destruct (Z.compare_spec (rank x) (rank y)) as [E | E | E]; symmetry;
  [apply Z.eqb_eq; exact E | apply Z.eqb_neq; lia | apply Z.eqb_neq; lia].
Qed.

(** [b - a > 0] exactly when [a < b], for numbers other than NaN. *)
Lemma sub_positive (a b : number) :
isNaN a = false -> isNaN b = false ->
(0 <? b - a)%float = (a <? b)%float.
Proof.
intros Ha Hb. rewrite (ltb_rank a b) by assumption.
rewrite ltb_spec, sub_spec.
change (Prim2SF 0) with (S754_zero false).
apply SFsub_positive;
  first [ apply Prim2SF_valid | now apply isNaN_false ].
Qed.

Lemma isNaN_zero : isNaN 0%float = false.
Proof. reflexivity. Qed.

Lemma rank_zero : rank 0%float = 0.
Proof. reflexivity. Qed.

(** A comparison with NaN is false. *)
Lemma ltb_NaN_l (x y : number) : isNaN x = true -> (x <? y)%float = false.
Proof.
intros H. rewrite ltb_spec.
destruct (Prim2SF x) eqn:E; try reflexivity;
  assert (isNaN x = false) by (apply isNaN_false; congruence); congruence.
Qed.

Lemma ltb_NaN_r (x y : number) : isNaN y = true -> (x <? y)%float = false.
Proof.
intros H. rewrite ltb_spec.
destruct (Prim2SF y) eqn:E;
  try (assert (isNaN y = false) by (apply isNaN_false; congruence); congruence).
now destruct (Prim2SF x).
Qed.

Lemma leb_NaN_l (x y : number) : isNaN x = true -> (x <=? y)%float = false.
Proof.
intros H. rewrite leb_spec.
destruct (Prim2SF x) eqn:E; try reflexivity;
  assert (isNaN x = false) by (apply isNaN_false; congruence); congruence.
Qed.


(** [0 < x] excludes [x <= 0]. *)
Lemma positive_not_le_zero (x : number) :
(0 <? x)%float = true -> (x <=? 0)%float = false.
Proof.
intros H.
destruct (isNaN x) eqn:N.
- now apply leb_NaN_l.
- rewrite ltb_rank in H by (assumption || reflexivity).
  rewrite leb_rank by (assumption || reflexivity).
  rewrite rank_zero in *. apply Z.ltb_lt in H. apply Z.leb_gt. exact H.
Qed.

(** A number that is not above [0] is at most [0]. *)
Lemma not_positive_le_zero (x : number) :
isNaN x = false -> (0 <? x)%float = false -> (x <=? 0)%float = true.
Proof.
intros N H.
rewrite ltb_rank in H by (assumption || reflexivity).
rewrite leb_rank by (assumption || reflexivity).
rewrite rank_zero in *. apply Z.ltb_ge in H. apply Z.leb_le. exact H.
Qed.

End Binary64.

(* ================================================================== *)
(** * 10. Properties of the derived views *)
(* ================================================================== *)

(** ** Substring search *)

Lemma startsWith_spec (q s : string) :
  startsWith s q = true <-> exists rest, s = q ++ rest.
Proof.
  revert s; induction q as [|c q IH]; intros s; simpl.
  - split; [intros _; now exists s | reflexivity].
  - destruct s as [|d s]; simpl.
    + split; [discriminate | intros [rest H]; discriminate].
    + rewrite andb_true_iff, IH, Ascii.eqb_eq. split.
      * intros [-> [rest ->]]. now exists rest.
      * intros [rest H]. injection H as -> ->. split; [reflexivity | now exists rest].
Qed.

Lemma includes_spec (q s : string) : includes s q = true <-> Substring q s.
Proof.
  induction s as [|c s IH]; simpl.
  - rewrite orb_false_r, startsWith_spec. split.
    + intros [rest H]. now exists "", rest.
    + intros [before [after H]].
      destruct before; simpl in H; [now exists after | discriminate].
  - rewrite orb_true_iff, startsWith_spec, IH. split.
    + intros [[rest H] | [before [after H]]].
      * now exists "", rest.
      * exists (String c before), after. simpl. now rewrite H.
    + intros [before [after H]]. destruct before as [|d before]; simpl in H.
      * left. now exists after.
      * right. injection H as _ H. now exists before, after.
Qed.

Lemma includes_false_spec (q s : string) : includes s q = false <-> ~ Substring q s.
Proof.
  rewrite <- includes_spec. destruct (includes s q); split; congruence.
Qed.

Section FilterProperties.

Variable toLowerCase : string -> string.
Variables searchQuery filterCategory : string.

Lemma matchesSearch_spec (e : Expense.t) :
  matchesSearch toLowerCase searchQuery e = true
  <-> SearchMatch toLowerCase searchQuery e.
Proof.
  unfold matchesSearch, SearchMatch.
  now rewrite orb_true_iff, !includes_spec.
Qed.

Lemma matchesCategory_spec (e : Expense.t) :
  matchesCategory filterCategory e = true <-> CategoryMatch filterCategory e.
Proof.
  unfold matchesCategory, CategoryMatch.
  now rewrite orb_true_iff, !String.eqb_eq.
Qed.

Lemma filter_condition_spec (e : Expense.t) :
  matchesSearch toLowerCase searchQuery e && matchesCategory filterCategory e = true
  <-> Matches toLowerCase searchQuery filterCategory e.
Proof.
  unfold Matches.
  now rewrite andb_true_iff, matchesSearch_spec, matchesCategory_spec.
Qed.

End FilterProperties.

Lemma filter_ExactlyThose {A : Type} (f : A -> bool) (P : A -> Prop) (l : list A) :
  (forall x, f x = true <-> P x) -> ExactlyThose P l (filter f l).
Proof.
  intros Hf. induction l as [|x l IH]; simpl.
  - constructor.
  - destruct (f x) eqn:E.
    + apply exactly_keep; [now apply Hf | exact IH].
    + apply exactly_skip; [| exact IH].
      intros HP. apply Hf in HP. congruence.
Qed.

(** [ExactlyThose P l] determines its result. *)
Lemma ExactlyThose_unique {A : Type} (P : A -> Prop) (l l1 l2 : list A) :
  ExactlyThose P l l1 -> ExactlyThose P l l2 -> l1 = l2.
Proof.
  intros H1; revert l2.
  induction H1; intros l2 H2; inversion H2; subst;
    try reflexivity; try contradiction.
  - f_equal; auto.
  - auto.
Qed.

Lemma fold_left_sum_amounts (l : list Expense.t) (acc : number) :
  fold_left (fun sum e => (sum + Expense.amount e)%float) l acc
  = sum_amounts_from acc l.
Proof.
  revert acc; induction l as [|e l IH]; intros acc; simpl; [reflexivity | apply IH].
Qed.

(** C1. For every ledger, search query and category filter, the filtered
    list holds exactly the records that match both the case-insensitive
    substring search over notes and category and the category filter
    (['all'] matching every record), and the displayed total is the sum of
    the amounts of those records. *)
Theorem filtered_total_is_sum_of_matching
  (toLowerCase : string -> string) (expenses : list Expense.t)
  (searchQuery filterCategory : string) :
  exists matching,
    ExactlyThose (Matches toLowerCase searchQuery filterCategory) expenses matching
    /\ filteredExpenses toLowerCase expenses searchQuery filterCategory = matching
    /\ totalExpenses toLowerCase expenses searchQuery filterCategory
       = sum_amounts matching.
Proof.
  exists (filteredExpenses toLowerCase expenses searchQuery filterCategory).
  split; [| split].
  - apply filter_ExactlyThose. intros e. apply filter_condition_spec.
  - reflexivity.
  - unfold totalExpenses. apply fold_left_sum_amounts.
Qed.

(* ================================================================== *)
(** * 11. Properties of the capture adapters *)
(* ================================================================== *)

Lemma truthy_string_false (s : string) : truthy_string s = false <-> s = "".
Proof. destruct s; simpl; split; congruence. Qed.

Lemma truthy_string_true (s : string) : truthy_string s = true <-> s <> "".
Proof. destruct s; simpl; split; congruence. Qed.

Lemma or_string_nonempty (a b : string) : b <> "" -> or_string a b <> "".
Proof.
  intros Hb. unfold or_string. destruct (truthy_string a) eqn:E; [| exact Hb].
  now apply truthy_string_true.
Qed.

Lemma or_default_nonempty (a : option string) (b : string) :
  b <> "" -> or_default a b <> "".
Proof.
  intros Hb. destruct a as [s |]; simpl; [now apply or_string_nonempty | exact Hb].
Qed.

Lemma parseFloat_empty : isNaN (parseFloat "") = true.
Proof. reflexivity. Qed.

(** ** Manual entry *)

(** C5. A manual entry with no amount, with an amount that is a number not
    greater than 0, or with no category is rejected: the click sets one of
    the two field-level error messages, makes no network call, starts no
    continuation and leaves the ledger as it was. *)
Theorem invalid_manual_entry_is_rejected
  (formatCurrency Number_toString : number -> string) (sys : System) :
  invalid_manual_entry (manualAmount (manualEntry (ui sys)))
    (manualCategory (manualEntry (ui sys))) ->
  let sys' := dispatch formatCurrency Number_toString sys ClickAddExpense in
  calls sys' = calls sys
  /\ pending sys' = pending sys
  /\ ledger sys' = ledger sys
  /\ (manualError (manualEntry (ui sys')) = "Please enter a valid amount greater than 0"
      \/ manualError (manualEntry (ui sys')) = "Please select a category").
Proof.
  intros Hinvalid. cbn zeta.
  unfold dispatch, handleManualSubmit, ledger.
  destruct (negb (truthy_string (manualAmount (manualEntry (ui sys))))
            || (parseFloat (manualAmount (manualEntry (ui sys))) <=? 0)%float) eqn:Eamount.
  - cbn. auto.
  - destruct (negb (truthy_string (manualCategory (manualEntry (ui sys))))) eqn:Ecat.
    + cbn. auto.
    + exfalso.
      apply orb_false_iff in Eamount. destruct Eamount as [Ea El].
      apply negb_false_iff in Ea, Ecat.
      apply truthy_string_true in Ea, Ecat.
      destruct Hinvalid as [H | [[Hn Hp] | H]]; try contradiction.
      rewrite (not_positive_le_zero _ Hn Hp) in El. discriminate.
Qed.

(** C3. A manual entry whose amount parses to a value greater than 0 and
    whose category is not empty passes the validation and calls the agent;
    when the agent call succeeds, the ledger of that moment gets exactly
    one record more, the new record is at its head and carries the entered
    values, and the records that were there follow it unchanged. *)
Theorem valid_manual_expense_is_prepended
  (formatCurrency : number -> string) (st : State) :
  (0 <? parseFloat (manualAmount (manualEntry st)))%float = true ->
  manualCategory (manualEntry st) <> "" ->
  exists st1 message,
    handleManualSubmit st
    = (st1, Some (callAIAgent message AGENT_ID None,
                  AwaitManualAgent (manualAmount (manualEntry st))
                    (manualCategory (manualEntry st))
                    (manualNotes (manualEntry st))))
    /\ expenses st1 = expenses st
    /\ forall (r : AgentResult unit) (clock : Clock) (current : State),
         agent_succeeded r = Some true ->
         let st2 :=
           handleManualSubmit_settled formatCurrency
             (manualAmount (manualEntry st)) (manualCategory (manualEntry st))
             (manualNotes (manualEntry st)) (Fulfilled r) clock current in
         exists newExpense,
           expenses st2 = newExpense :: expenses current
           /\ List.length (expenses st2) = S (List.length (expenses current))
           /\ Expense.amount newExpense = parseFloat (manualAmount (manualEntry st))
           /\ Expense.category newExpense = manualCategory (manualEntry st)
           /\ Expense.notes newExpense = manualNotes (manualEntry st)
           /\ Expense.source newExpense = manual.
Proof.
  intros Hpos Hcat.
  assert (Hle : (parseFloat (manualAmount (manualEntry st)) <=? 0)%float = false)
    by now apply positive_not_le_zero.
  assert (Hamount : truthy_string (manualAmount (manualEntry st)) = true).
  { destruct (manualAmount (manualEntry st)) eqn:E; [| reflexivity].
    rewrite ltb_NaN_r in Hpos by apply parseFloat_empty. discriminate. }
  apply truthy_string_true in Hcat.
  unfold handleManualSubmit. rewrite Hamount, Hle, Hcat. cbn [negb orb].
  eexists. eexists. split; [reflexivity |]. split; [reflexivity |].
  intros r clock current Hok. cbn zeta.
  unfold handleManualSubmit_settled. rewrite Hok.
  eexists. split; [reflexivity |]. cbn. repeat split; reflexivity.
Qed.

(** ** Failures *)

Lemma banner_from_notifications (st : State) (earlier : list Notification.t)
  (message id : string) :
  notifications st = (earlier ++ [Notification.mk error message id])%list ->
  message <> "" -> error_banner_shown st.
Proof.
  intros Hn Hm. exists earlier, (Notification.mk error message id).
  repeat split; assumption.
Qed.

(** Closes the goals of a failure branch once the branch is evaluated. *)
Ltac settle_failure :=
  cbn; repeat split;
  first [ eapply banner_from_notifications; [cbn; reflexivity | discriminate]
        | now apply or_default_nonempty
        | discriminate ].

(** C6. When an outstanding upload or agent call of any of the three
    capture paths fails (the promise is rejected, the upload is
    unsuccessful or names no asset, the agent reply is unsuccessful or lacks
    what the adapter reads), the continuation leaves the ledger exactly as
    it was, shows an error banner, sets the inline error of its adapter, and
    makes no further network call. *)
Theorem failure_leaves_ledger_unchanged
  (formatCurrency Number_toString : number -> string)
  (sys : System) (n : nat) (k : Pending) (reply : Reply) (clock : Clock) :
  nth_error (pending sys) n = Some k ->
  failure k reply = true ->
  let sys' := dispatch formatCurrency Number_toString sys (Settle n reply clock) in
  ledger sys' = ledger sys
  /\ error_banner_shown (ui sys')
  /\ inline_error k (ui sys') <> ""
  /\ calls sys' = calls sys.
Proof.
  intros Hk Hfail. cbn zeta. unfold dispatch. rewrite Hk. unfold ledger.
  destruct k as [amount category notes | file | | file | ];
    destruct reply as [r | r | r | r]; try discriminate Hfail;
    cbn [resume failure] in *.
  - (* manual entry *)
    unfold handleManualSubmit_settled, agent_failed in *.
    destruct r as [a |]; [destruct (agent_succeeded a) as [[|] |] eqn:Es |].
    + unfold agent_succeeded in Es. destruct (success_flag a); [| discriminate].
      destruct (response a) as [[? ? [?|]] |]; discriminate.
    + unfold response_message. destruct (response a) as [resp |] eqn:Er;
        settle_failure.
    + settle_failure.
    + settle_failure.
  - (* spreadsheet upload *)
    unfold processExcelFile_uploaded, upload_failed in *.
    destruct r as [u |]; [| settle_failure].
    destruct (upload_success u), (asset_ids u) as [| assetId rest];
      try discriminate Hfail; settle_failure.
  - (* spreadsheet agent *)
    unfold processExcelFile_settled, agent_failed in *.
    destruct r as [a |]; [destruct (agent_succeeded a) as [[|] |] eqn:Es |].
    + destruct (response a) as [[? ? [?|]] |]; try discriminate Hfail;
        settle_failure.
    + unfold response_message. destruct (response a) as [resp |] eqn:Er;
        settle_failure.
    + settle_failure.
    + settle_failure.
  - (* image upload *)
    unfold processImage_uploaded, upload_failed in *.
    destruct r as [u |]; [| settle_failure].
    destruct (upload_success u), (asset_ids u) as [| assetId rest];
      try discriminate Hfail; settle_failure.
  - (* image agent *)
    unfold processImage_settled, agent_failed in *.
    destruct r as [a |]; [destruct (agent_succeeded a) as [[|] |] eqn:Es |].
    + destruct (response a) as [[? ? [?|]] |]; try discriminate Hfail;
        settle_failure.
    + unfold response_message. destruct (response a) as [resp |] eqn:Er;
        settle_failure.
    + settle_failure.
    + settle_failure.
Qed.

(** ** Confirming with nothing to confirm *)

Lemma update_id (f : State -> State) (sys : System) :
  f (ui sys) = ui sys -> update f sys = sys.
Proof.
  intros H. unfold update. rewrite H. now destruct sys.
Qed.

(** C7. Confirming a spreadsheet import while the preview is empty, or
    confirming an image entry while there is no extracted candidate, changes
    nothing: the page, and with it the ledger, is the same before and
    after. *)
Theorem confirm_without_candidates_is_noop
  (formatCurrency Number_toString : number -> string)
  (sys : System) (ev : Event) :
  confirm_without_candidates ev (ui sys) ->
  dispatch formatCurrency Number_toString sys ev = sys
  /\ ledger (dispatch formatCurrency Number_toString sys ev) = ledger sys.
Proof.
  intros H.
  assert (E : dispatch formatCurrency Number_toString sys ev = sys).
  { destruct H as [[clock [-> Hempty]] | [clock [-> Hnone]]]; cbn [dispatch];
      apply update_id.
    - unfold handleExcelConfirm. now rewrite Hempty.
    - unfold handleImageConfirm. now rewrite Hnone. }
  split; [exact E | now rewrite E].
Qed.

(** ** The fallback preview *)


(* ================================================================== *)
(** * 12. Invariants of the ledger *)
(* ================================================================== *)

(** ** Amounts *)








Lemma handleManualSubmit_validated (st : State) :
  expenses (fst (handleManualSubmit st)) = expenses st
  /\ match snd (handleManualSubmit st) with
     | Some (_, k) => validated k
     | None => True
     end.
Proof.
  unfold handleManualSubmit.
  destruct (negb (truthy_string (manualAmount (manualEntry st)))
            || (parseFloat (manualAmount (manualEntry st)) <=? 0)%float) eqn:E.
  - now split.
  - destruct (negb (truthy_string (manualCategory (manualEntry st)))).
    + now split.
    + split; [reflexivity |]. cbn. now apply orb_false_iff in E.
Qed.


Lemma process_uploaded_harmless_excel (file : File.t) (r : Settled UploadResult)
  (clock : Clock) (st : State) :
  harmless st (processExcelFile_uploaded file r clock st).
Proof.
  unfold processExcelFile_uploaded.
  destruct r as [u |]; [| now split].
  destruct (upload_success u), (asset_ids u); now split.
Qed.

Lemma process_uploaded_harmless_image (file : File.t) (r : Settled UploadResult)
  (clock : Clock) (st : State) :
  harmless st (processImage_uploaded file r clock st).
Proof.
  unfold processImage_uploaded.
  destruct r as [u |]; [| now split].
  destruct (upload_success u), (asset_ids u); now split.
Qed.

Lemma processExcelFile_settled_expenses
  (r : Settled (AgentResult SpreadsheetResult)) (clock : Clock) (st : State) :
  expenses (processExcelFile_settled r clock st) = expenses st.
Proof.
  unfold processExcelFile_settled.
  destruct r as [a |]; [| reflexivity].
  destruct (agent_succeeded a) as [[|] |]; [| | reflexivity].
  - destruct (response a) as [[? ? [?|]] |]; reflexivity.
  - destruct (response_message a _); reflexivity.
Qed.

Lemma processImage_settled_expenses (Number_toString : number -> string)
  (r : Settled (AgentResult ReceiptResult)) (clock : Clock) (st : State) :
  expenses (processImage_settled Number_toString r clock st) = expenses st.
Proof.
  unfold processImage_settled.
  destruct r as [a |]; [| reflexivity].
  destruct (agent_succeeded a) as [[|] |]; [| | reflexivity].
  - destruct (response a) as [[? ? [?|]] |]; reflexivity.
  - destruct (response_message a _); reflexivity.
Qed.

Lemma handleExcelDrop_harmless (file : option File.t) (st : State) :
  harmless st (handleExcelDrop file st).
Proof.
  unfold handleExcelDrop. destruct file as [f |]; [| now split].
  destruct (endsWith (File.name f) ".xlsx" || endsWith (File.name f) ".xls"
            || endsWith (File.name f) ".csv"); now split.
Qed.

Lemma handleImageDrop_harmless (file : option File.t) (st : State) :
  harmless st (handleImageDrop file st).
Proof.
  unfold handleImageDrop. destruct file as [f |]; [| now split].
  destruct (startsWith (File.type f) "image/"); now split.
Qed.




(** ** Identity *)

(** The stable part of a deletion: the records that stay are exactly those
    with another id, in their order. *)
Lemma deleteExpense_keeps_the_others (id : string) (st : State) :
  ExactlyThose (fun e => Expense.id e <> id) (expenses st)
    (expenses (deleteExpense id st)).
Proof.
  cbn. apply filter_ExactlyThose. intros e.
  rewrite negb_true_iff. split.
  - intros H E. apply String.eqb_eq in E. congruence.
  - intros H. apply String.eqb_neq. exact H.
Qed.

Lemma filter_other_ids_absent (id : string) (l : list Expense.t) :
  ~ In id (ids l) ->
  filter (fun e => negb (String.eqb (Expense.id e) id)) l = l.
Proof.
  induction l as [|e l IH]; simpl; intros H; [reflexivity |].
  destruct (String.eqb_spec (Expense.id e) id) as [E | E]; simpl.
  - exfalso. apply H. now left.
  - f_equal. apply IH. intros Hin. apply H. now right.
Qed.

(** On a ledger without repeated ids, deleting the id of a record removes
    that record and nothing else. *)
Lemma deleteExpense_removes_one (e : Expense.t) (st : State) :
  NoDup (ids (expenses st)) -> In e (expenses st) ->
  exists before after,
    expenses st = (before ++ e :: after)%list
    /\ expenses (deleteExpense (Expense.id e) st) = (before ++ after)%list.
Proof.
  intros Hnd Hin. cbn.
  apply in_split in Hin. destruct Hin as [before [after E]].
  exists before, after. split; [exact E |].
  rewrite E in *. unfold ids in Hnd. rewrite map_app in Hnd. simpl in Hnd.
  apply NoDup_remove in Hnd. destruct Hnd as [_ Hnotin].
  rewrite filter_app. simpl. rewrite String.eqb_refl. simpl.
  rewrite <- map_app in Hnotin.
  assert (Hb : ~ In (Expense.id e) (ids before))
    by (intros H; apply Hnotin; unfold ids in *; rewrite map_app; apply in_or_app; now left).
  assert (Ha : ~ In (Expense.id e) (ids after))
    by (intros H; apply Hnotin; unfold ids in *; rewrite map_app; apply in_or_app; now right).
  now rewrite !filter_other_ids_absent.
Qed.

(** C9 (the code at the failing input). When the agent's answer to a
    manual entry and the confirmation of an extracted receipt run within the
    same millisecond, both appends read the same [Date.now()] and the
    ledger holds two records with the same id. *)
Theorem colliding_appends_share_an_id :
  let sys := run_events showNumber showNumber initialSystem
               (collidingAppends 1700000002000) in
  reachable showNumber showNumber sys
  /\ ids (ledger sys) = ["1700000002000"; "1700000002000"]
  /\ map Expense.source (ledger sys) = [image; manual]
  /\ ~ NoDup (ids (ledger sys)).
Proof.
  cbn zeta.
  assert (E : ids (ledger (run_events showNumber showNumber initialSystem
                             (collidingAppends 1700000002000)))
              = ["1700000002000"; "1700000002000"])
    by (vm_compute; reflexivity).
  split; [| split; [| split]].
  - now exists (collidingAppends 1700000002000).
  - exact E.
  - vm_compute. reflexivity.
  - rewrite E. intros H. inversion H as [| x l Hnotin _]; subst.
    apply Hnotin. now left.
Qed.

(** C4 (the code at the failing input). On the ledger of the run above, the
    delete button of either record removes both records. *)
Theorem delete_removes_both_colliding_records :
  let sys := run_events showNumber showNumber initialSystem
               (collidingAppends 1700000002000) in
  let sys' := dispatch showNumber showNumber sys (ClickDelete "1700000002000") in
  List.length (ledger sys) = 2%nat
  /\ ids (ledger sys) = ["1700000002000"; "1700000002000"]
  /\ ledger sys' = [].
Proof.
  cbn zeta. split; [| split]; vm_compute; reflexivity.
Qed.


(* ================================================================== *)
(** * 13. The category totals and the top category *)
(* ================================================================== *)

(** ** The order of numbers other than NaN *)




(** ** Sorting by descending total *)



(** ** The accumulator object *)



Lemma keys_set_property (o : JsObject) (k : string) (v : Total) :
  (In k (keys o) /\ keys (set_property o k v) = keys o)
  \/ (~ In k (keys o) /\ keys (set_property o k v) = (keys o ++ [k])%list).
Proof.
  induction o as [|[k' v'] o IH]; simpl.
  - right. split; [tauto | reflexivity].
  - destruct (String.eqb_spec k' k) as [E | E]; simpl.
    + left. split; [now left | reflexivity].
    + destruct IH as [[Hin Hk] | [Hnotin Hk]].
      * left. split; [now right | now rewrite Hk].
      * right. split; [| now rewrite Hk]. intros [H | H]; contradiction.
Qed.

Lemma keys_accumulate (o : JsObject) (k : string) (amount : number) :
  keys (accumulate o k amount) = keys o
  \/ (~ In k (keys o) /\ k <> "__proto__"
      /\ keys (accumulate o k amount) = (keys o ++ [k])%list).
Proof.
  unfold accumulate. destruct (String.eqb_spec k "__proto__") as [E | E].
  - now left.
  - destruct (keys_set_property o k (add_amount k (own_property o k) amount))
      as [[_ H] | [Hn H]]; [now left | right; auto].
Qed.




Lemma In_own_property (o : JsObject) (k : string) (v : Total) :
  NoDup (keys o) -> In (k, v) o -> own_property o k = Some v.
Proof.
  induction o as [|[k' v'] o IH]; simpl; intros Hnd Hin; [contradiction |].
  inversion Hnd as [| x l Hnotin Hnd']; subst.
  destruct Hin as [[= -> ->] | Hin].
  - now rewrite String.eqb_refl.
  - destruct (String.eqb_spec k' k) as [E | E]; [| now apply IH].
    subst k'. exfalso. apply Hnotin. unfold keys.
    change k with (fst (k, v)). now apply in_map.
Qed.

Lemma accumulate_all_cons (e : Expense.t) (l : list Expense.t) (o : JsObject) :
  accumulate_all (e :: l) o
  = accumulate_all l (accumulate o (Expense.category e) (Expense.amount e)).
Proof. reflexivity. Qed.






Lemma keys_accumulate_all_In (l : list Expense.t) (o : JsObject) (k : string) :
  In k (keys (accumulate_all l o)) -> In k (keys o) \/ In k (categories l).
Proof.
  revert o; induction l as [|e l IH]; intros o; [now left |].
  rewrite accumulate_all_cons. intros H.
  apply IH in H. destruct H as [H | H]; [| right; now right].
  destruct (keys_accumulate o (Expense.category e) (Expense.amount e))
    as [E | [_ [_ E]]]; rewrite E in H.
  - now left.
  - apply in_app_or in H. destruct H as [H | [<- | []]]; [now left | right; now left].
Qed.

Lemma keys_accumulate_all_NoDup (l : list Expense.t) (o : JsObject) :
  NoDup (keys o) -> NoDup (keys (accumulate_all l o)).
Proof.
  revert o; induction l as [|e l IH]; intros o Hnd; [exact Hnd |].
  rewrite accumulate_all_cons. apply IH.
  destruct (keys_accumulate o (Expense.category e) (Expense.amount e))
    as [-> | [Hn [_ ->]]]; [exact Hnd |].
  apply NoDup_app; [exact Hnd | repeat constructor; tauto | ].
  intros x Hx [<- | []]. contradiction.
Qed.

(** ** Enumeration order *)

Lemma In_insert_by_index (e x : string * Total) (l : list (string * Total)) :
  In e (insert_by_index x l) <-> e = x \/ In e l.
Proof.
  induction l as [|y l IH]; simpl.
  - intuition congruence.
  - destruct (index_of (fst x) <=? index_of (fst y))%N; simpl.
    + intuition congruence.
    + rewrite IH. intuition congruence.
Qed.

Lemma In_sorted_by_index (e : string * Total) (l : list (string * Total)) :
  In e (fold_right insert_by_index [] l) <-> In e l.
Proof.
  induction l as [|x l IH]; simpl; [tauto |].
  rewrite In_insert_by_index, IH. intuition congruence.
Qed.

(** [Object.entries] lists every own property once. *)
Lemma In_Object_entries (e : string * Total) (o : JsObject) :
  In e (Object_entries o) <-> In e o.
Proof.
  unfold Object_entries.
  rewrite in_app_iff, In_sorted_by_index, !filter_In.
  destruct (is_array_index (fst e)); simpl; intuition congruence.
Qed.


Lemma filter_all_true {A : Type} (f : A -> bool) (l : list A) :
  (forall x, In x l -> f x = true) -> filter f l = l.
Proof.
  induction l as [|x l IH]; simpl; intros H; [reflexivity |].
  rewrite (H x) by now left. f_equal. apply IH. intros y Hy. apply H. now right.
Qed.


(** ** Which categories have a total *)







(** ** The top category of a filtered list *)


(* ================================================================== *)
(** * 14. Ids made from the clock *)
(* ================================================================== *)

(** ** Decimal texts *)

Lemma digits_only_app (a b : string) :
  digits_only (a ++ b) = digits_only a && digits_only b.
Proof.
  unfold digits_only. induction a as [|c a IH]; simpl; [reflexivity |].
  now rewrite IH, andb_assoc.
Qed.

Lemma digits_only_dash (a b : string) : digits_only (a ++ String "-" b) = false.
Proof.
  rewrite digits_only_app. simpl. apply andb_false_r.
Qed.

Lemma digits_only_uint (d : Decimal.uint) :
  digits_only (NilEmpty.string_of_uint d) = true.
Proof.
  unfold digits_only. induction d; simpl; auto.
Qed.

Lemma digits_only_nat_toString (n : nat) : digits_only (nat_toString n) = true.
Proof.
  unfold nat_toString, NilZero.string_of_uint.
  destruct (Nat.to_uint n); try reflexivity; apply digits_only_uint.
Qed.

Lemma to_uint_nonnil (n : nat) : Nat.to_uint n <> Decimal.Nil.
Proof.
  intros E. pose proof (DecimalNat.Unsigned.of_to n) as H. rewrite E in H.
  simpl in H. subst n. discriminate E.
Qed.

Lemma nat_toString_inj (n m : nat) : nat_toString n = nat_toString m -> n = m.
Proof.
  unfold nat_toString. intros E.
  apply DecimalNat.Unsigned.to_uint_inj.
  pose proof (NilZero.usu (Nat.to_uint n) (to_uint_nonnil n)) as Hn.
  pose proof (NilZero.usu (Nat.to_uint m) (to_uint_nonnil m)) as Hm.
  rewrite E in Hn. congruence.
Qed.

Lemma to_int_not_nil (t : Z) :
  Z.to_int t <> Decimal.Pos Decimal.Nil /\ Z.to_int t <> Decimal.Neg Decimal.Nil.
Proof.
  destruct t as [|p|p]; simpl; split; try discriminate;
    intros [= E]; now apply (DecimalPos.Unsigned.to_uint_nonnil p).
Qed.

Lemma Z_toString_inj (t t' : Z) : Z_toString t = Z_toString t' -> t = t'.
Proof.
  unfold Z_toString. intros E. apply DecimalZ.to_int_inj.
  destruct (to_int_not_nil t) as [H1 H2], (to_int_not_nil t') as [H3 H4].
  pose proof (NilZero.isi _ H1 H2) as Ht.
  pose proof (NilZero.isi _ H3 H4) as Ht'.
  rewrite E in Ht. congruence.
Qed.

(** The text of an integer is a run of digits, after a sign if it is
    negative. *)
Lemma Z_toString_shape (t : Z) :
  exists d, d <> "" /\ digits_only d = true
            /\ (Z_toString t = d \/ Z_toString t = String "-" d).
Proof.
  unfold Z_toString, NilZero.string_of_int.
  assert (Hu : forall u, NilZero.string_of_uint u <> ""
                         /\ digits_only (NilZero.string_of_uint u) = true).
  { intros u. unfold NilZero.string_of_uint. split.
    - destruct u; simpl; discriminate.
    - destruct u; try reflexivity; apply digits_only_uint. }
  destruct (Z.to_int t) as [u | u]; destruct (Hu u) as [H1 H2];
    exists (NilZero.string_of_uint u); auto.
Qed.

(** A text is cut at its last dash in one way only. *)
Lemma split_at_last_dash (a1 a2 d1 d2 : string) :
  digits_only d1 = true -> digits_only d2 = true ->
  a1 ++ "-" ++ d1 = a2 ++ "-" ++ d2 -> a1 = a2 /\ d1 = d2.
Proof.
  intros H1 H2. revert a2. induction a1 as [|c a1 IH]; intros a2 E.
  all: simpl in E.
  - destruct a2 as [|c2 a2]; simpl in E.
    + injection E as E. now split.
    + injection E as _ E. rewrite E, digits_only_dash in H1. discriminate.
  - destruct a2 as [|c2 a2]; simpl in E.
    + injection E as _ E. rewrite <- E, digits_only_dash in H2. discriminate.
    + injection E as -> E. destruct (IH a2 E) as [-> ->]. now split.
Qed.

Lemma Z_toString_no_inner_dash (t t' : Z) (d : string) :
  Z_toString t <> Z_toString t' ++ "-" ++ d.
Proof.
  intros E.
  destruct (Z_toString_shape t) as [ds [_ [Hds [Et | Et]]]];
    destruct (Z_toString_shape t') as [ds' [Hne' [_ [Et' | Et']]]];
    rewrite Et, Et' in E.
  - simpl in E. rewrite E, digits_only_dash in Hds. discriminate.
  - rewrite E in Hds. simpl in Hds. discriminate.
  - destruct ds' as [|c r]; [congruence |]. simpl in E. injection E as _ E.
    rewrite E, digits_only_dash in Hds. discriminate.
  - simpl in E. injection E as E. rewrite E, digits_only_dash in Hds. discriminate.
Qed.

(** An id tells the clock value it was made from. *)
Lemma made_at_inj (t t' : Z) (id : string) :
  made_at t id -> made_at t' id -> t = t'.
Proof.
  intros [E | [i E]] [E' | [i' E']]; subst id.
  - now apply Z_toString_inj.
  - exfalso. exact (Z_toString_no_inner_dash _ _ _ E').
  - exfalso. symmetry in E'. exact (Z_toString_no_inner_dash _ _ _ E').
  - apply split_at_last_dash in E'; try apply digits_only_nat_toString.
    destruct E' as [E' _]. symmetry. now apply Z_toString_inj.
Qed.

(** ** What each event does to the ledger *)

Lemma handleExcelConfirm_expenses (clock : Clock) (st : State) :
  expenses (handleExcelConfirm clock st)
  = (map (fun '(index, item) => expenseOfItem clock index item)
       (indexed (excelPreview (excelUpload st)))
     ++ expenses st)%list.
Proof.
  unfold handleExcelConfirm.
  destruct (excelPreview (excelUpload st)) as [|item items]; reflexivity.
Qed.

Lemma handleImageConfirm_expenses (formatCurrency : number -> string)
  (clock : Clock) (st : State) :
  expenses (handleImageConfirm formatCurrency clock st)
  = match extractedData (imageUpload st) with
    | Some data =>
        Expense.mk (Z_toString (Date_now clock 0))
          (or_number (parseFloat (ExtractedExpense.amount data)) 0%float)
          (ExtractedExpense.category data) (ExtractedExpense.notes data)
          (Date_toISOString clock 0) image
          (Some (Confidence.overall (ExtractedExpense.confidence data)))
        :: expenses st
    | None => expenses st
    end.
Proof.
  unfold handleImageConfirm.
  destruct (extractedData (imageUpload st)); reflexivity.
Qed.

Lemma handleManualSubmit_settled_expenses (formatCurrency : number -> string)
  (amount category notes : string) (r : Settled (AgentResult unit))
  (clock : Clock) (st : State) :
  expenses (handleManualSubmit_settled formatCurrency amount category notes r clock st)
  = match r with
    | Fulfilled a =>
        match agent_succeeded a with
        | Some true =>
            Expense.mk (Z_toString (Date_now clock 0)) (parseFloat amount)
              category notes (Date_toISOString clock 0) manual None
            :: expenses st
        | _ => expenses st
        end
    | Thrown => expenses st
    end.
Proof.
  unfold handleManualSubmit_settled.
  destruct r as [a |]; [| reflexivity].
  destruct (agent_succeeded a) as [[|] |]; try reflexivity.
  destruct (response_message a "Failed to add expense"); reflexivity.
Qed.

Lemma finish_ledger (rest : list Pending) (sys : System) (r : Run) :
  ledger (finish rest sys r) = expenses (fst r).
Proof. destruct r as [st [[request k] |]]; reflexivity. Qed.

(** The ledger after an event. *)
Lemma ledger_dispatch (formatCurrency Number_toString : number -> string)
  (sys : System) (ev : Event) :
  ledger (dispatch formatCurrency Number_toString sys ev)
  = match ev with
    | ClickConfirmImport clock => expenses (handleExcelConfirm clock (ui sys))
    | ClickConfirmEntry clock =>
        expenses (handleImageConfirm formatCurrency clock (ui sys))
    | ClickDelete id =>
        filter (fun e => negb (String.eqb (Expense.id e) id)) (ledger sys)
    | Settle n (ManualReply r) clock =>
        match nth_error (pending sys) n with
        | Some (AwaitManualAgent amount category notes) =>
            expenses (handleManualSubmit_settled formatCurrency amount category
                        notes r clock (ui sys))
        | _ => ledger sys
        end
    | _ => ledger sys
    end.
Proof.
  destruct ev; cbn [dispatch]; try reflexivity.
  - rewrite finish_ledger. apply handleManualSubmit_validated.
  - rewrite finish_ledger. apply handleExcelDrop_harmless.
  - destruct file; reflexivity.
  - rewrite finish_ledger. apply handleImageDrop_harmless.
  - destruct file; reflexivity.
  - destruct (nth_error (pending sys) n) as [k |]; [| now destruct reply].
    destruct k as [amount category notes | file | | file | ];
      destruct reply as [r | r | r | r]; cbn [resume]; try reflexivity;
      rewrite finish_ledger; cbn [fst].
    + apply process_uploaded_harmless_excel.
    + apply processExcelFile_settled_expenses.
    + apply process_uploaded_harmless_image.
    + apply processImage_settled_expenses.
Qed.

(** ** The invariant *)

Lemma ids_invariant_same (used stamps : list Z) (sys sys' : System) :
  ledger sys' = ledger sys ->
  ids_invariant used sys -> ids_invariant (stamps ++ used)%list sys'.
Proof.
  intros E [Hnd Hmade]. unfold ids_invariant. rewrite E. split; [exact Hnd |].
  intros id Hid. destruct (Hmade id Hid) as [t [Ht Hm]].
  exists t. split; [apply in_or_app; now right | exact Hm].
Qed.

Lemma ids_invariant_cons (used : list Z) (sys sys' : System) (e : Expense.t) (t : Z) :
  ledger sys' = e :: ledger sys ->
  Expense.id e = Z_toString t -> ~ In t used ->
  ids_invariant used sys -> ids_invariant ([t] ++ used)%list sys'.
Proof.
  intros E Eid Hfresh [Hnd Hmade]. unfold ids_invariant. rewrite E. simpl. split.
  - constructor; [| exact Hnd].
    intros Hin. destruct (Hmade _ Hin) as [t' [Ht' Hm]].
    assert (t = t') by (apply (made_at_inj t t' (Expense.id e)); [now left | exact Hm]).
    subst t'. contradiction.
  - intros id [<- | Hid].
    + exists t. split; [now left | now left].
    + destruct (Hmade id Hid) as [t' [Ht' Hm]]. exists t'. split; [now right | exact Hm].
Qed.

Lemma In_indexed_range {A : Type} (items : list A) (start i : nat) (x : A) :
  In (i, x) (combine (seq start (List.length items)) items) ->
  (start <= i < start + List.length items)%nat.
Proof.
  revert start; induction items as [|y items IH]; intros start; simpl; [tauto |].
  intros [[= <- _] | H]; [lia |]. apply IH in H. lia.
Qed.

Lemma imported_ids_NoDup (clock : Clock) (items : list PreviewItem.t) (start : nat) :
  NoDup (ids (map (fun '(index, item) => expenseOfItem clock index item)
                (combine (seq start (List.length items)) items))).
Proof.
  revert start; induction items as [|y items IH]; intros start; simpl; [constructor |].
  constructor; [| apply IH].
  intros Hin. unfold ids in Hin. rewrite map_map in Hin. apply in_map_iff in Hin.
  destruct Hin as [[i x] [E Hi]]. apply In_indexed_range in Hi.
  cbn in E. apply split_at_last_dash in E; try apply digits_only_nat_toString.
  destruct E as [_ E]. apply nat_toString_inj in E. lia.
Qed.

Lemma imported_ids_made (clock : Clock) (items : list PreviewItem.t) (id : string) :
  In id (ids (map (fun '(index, item) => expenseOfItem clock index item)
                (indexed items))) ->
  exists t, In t (map (Date_now clock) (seq 0 (List.length items))) /\ made_at t id.
Proof.
  unfold ids, indexed. rewrite map_map. intros Hin. apply in_map_iff in Hin.
  destruct Hin as [[i x] [E Hi]]. apply In_indexed_range in Hi.
  exists (Date_now clock i). split.
  - apply in_map. apply in_seq. lia.
  - right. exists i. now rewrite <- E.
Qed.

Lemma ids_invariant_import (used : list Z) (sys sys' : System) (clock : Clock) :
  ledger sys' = expenses (handleExcelConfirm clock (ui sys)) ->
  (forall t, In t (id_stamps sys (ClickConfirmImport clock)) -> ~ In t used) ->
  ids_invariant used sys ->
  ids_invariant (id_stamps sys (ClickConfirmImport clock) ++ used)%list sys'.
Proof.
  intros E Hfresh [Hnd Hmade]. unfold ids_invariant.
  rewrite E, handleExcelConfirm_expenses. unfold ids. rewrite map_app.
  cbn [id_stamps] in *. split.
  - apply NoDup_app; [apply imported_ids_NoDup | exact Hnd |].
    intros id Hnew Hold.
    destruct (imported_ids_made clock _ id Hnew) as [t [Ht Hm]].
    destruct (Hmade id Hold) as [t' [Ht' Hm']].
    assert (t = t') by now apply (made_at_inj t t' id).
    subst t'. exact (Hfresh t Ht Ht').
  - intros id Hid. apply in_app_or in Hid. destruct Hid as [Hnew | Hold].
    + destruct (imported_ids_made clock _ id Hnew) as [t [Ht Hm]].
      exists t. split; [apply in_or_app; now left | exact Hm].
    + destruct (Hmade id Hold) as [t [Ht Hm]].
      exists t. split; [apply in_or_app; now right | exact Hm].
Qed.

Lemma NoDup_ids_filter (f : Expense.t -> bool) (l : list Expense.t) :
  NoDup (ids l) -> NoDup (ids (filter f l)).
Proof.
  induction l as [|e l IH]; simpl; intros H; [constructor |].
  inversion H as [| x l' Hnotin Hnd]; subst.
  destruct (f e); simpl; [| now apply IH].
  constructor; [| now apply IH].
  intros Hin. apply Hnotin. unfold ids in *. apply in_map_iff in Hin.
  destruct Hin as [e' [E He']]. apply filter_In in He'. destruct He' as [He' _].
  rewrite <- E. now apply in_map.
Qed.

Lemma ids_invariant_delete (used : list Z) (sys sys' : System) (id : string) :
  ledger sys' = filter (fun e => negb (String.eqb (Expense.id e) id)) (ledger sys) ->
  ids_invariant used sys -> ids_invariant used sys'.
Proof.
  intros E [Hnd Hmade]. unfold ids_invariant. rewrite E. split.
  - now apply NoDup_ids_filter.
  - intros id' Hid. apply Hmade. unfold ids in *. apply in_map_iff in Hid.
    destruct Hid as [e [Ee He]]. apply filter_In in He. destruct He as [He _].
    rewrite <- Ee. now apply in_map.
Qed.

Lemma dispatch_ids_invariant (formatCurrency Number_toString : number -> string)
  (used : list Z) (sys : System) (ev : Event) :
  (forall t, In t (id_stamps sys ev) -> ~ In t used) ->
  ids_invariant used sys ->
  ids_invariant (id_stamps sys ev ++ used)%list
    (dispatch formatCurrency Number_toString sys ev).
Proof.
  intros Hfresh Hinv.
  pose proof (ledger_dispatch formatCurrency Number_toString sys ev) as E.
  destruct ev; try exact (ids_invariant_same used _ sys _ E Hinv).
  - (* confirm import *)
    now apply ids_invariant_import.
  - (* confirm entry *)
    rewrite handleImageConfirm_expenses in E. cbn [id_stamps] in *.
    destruct (extractedData (imageUpload (ui sys))) as [data |].
    + apply (ids_invariant_cons used sys _ _ (Date_now clock 0) E);
        [reflexivity | apply Hfresh; now left | exact Hinv].
    + exact (ids_invariant_same used [] sys _ E Hinv).
  - (* delete *)
    exact (ids_invariant_delete used sys _ id E Hinv).
  - (* a promise settles *)
    destruct reply as [r | r | r | r];
      try exact (ids_invariant_same used _ sys _ E Hinv).
    destruct (nth_error (pending sys) n) as [[amount category notes | | | | ] |] eqn:Ek;
      cbn [id_stamps] in *; rewrite Ek in *;
      try (destruct r; exact (ids_invariant_same used [] sys _ E Hinv)).
    rewrite handleManualSubmit_settled_expenses in E.
    destruct r as [a |]; [| exact (ids_invariant_same used [] sys _ E Hinv)].
    destruct (agent_succeeded a) as [[|] |];
      try exact (ids_invariant_same used [] sys _ E Hinv).
    apply (ids_invariant_cons used sys _ _ (Date_now clock 0) E);
      [reflexivity | apply Hfresh; now left | exact Hinv].
Qed.

(** The ids of the ledger are pairwise different after every run in which
    no append reads, for an id, a clock value that an earlier append has
    read for one.  (The indices keep the ids of one import apart even when
    the clock stands still during it.) *)
Lemma ids_unique_while_clock_distinct
  (formatCurrency Number_toString : number -> string) (events : list Event) :
  distinct_clock formatCurrency Number_toString [] initialSystem events ->
  NoDup (ids (ledger (run_events formatCurrency Number_toString initialSystem events))).
Proof.
  assert (H : forall events used sys,
             ids_invariant used sys ->
             distinct_clock formatCurrency Number_toString used sys events ->
             exists used',
               ids_invariant used'
                 (run_events formatCurrency Number_toString sys events)).
  { clear events. induction events as [|ev events IH]; intros used sys Hinv Hd.
    - now exists used.
    - destruct Hd as [Hfresh Hrest]. simpl.
      apply (IH _ _ (dispatch_ids_invariant _ _ used sys ev Hfresh Hinv) Hrest). }
  intros Hd.
  destruct (H events [] initialSystem) as [used' [Hnd _]]; [| exact Hd | exact Hnd].
  split; [constructor | intros id []].
Qed.

(* ================================================================== *)
(** * 15. Worked examples *)
(* ================================================================== *)

(** ** parseFloat *)

Example parseFloat_decimal : parseFloat "50.00" = 50%float.
Proof. reflexivity. Qed.

Example parseFloat_rounds_to_nearest : parseFloat "0.1" = 0x1.999999999999ap-4%float.
Proof. reflexivity. Qed.

Example parseFloat_longest_prefix : parseFloat "  -12.5e1xyz" = (-125)%float.
Proof. reflexivity. Qed.

Example parseFloat_not_a_number : isNaN (parseFloat "abc") = true.
Proof. reflexivity. Qed.

Example parseFloat_largest : parseFloat "1.7976931348623158e308" = 0x1.fffffffffffffp+1023%float.
Proof. reflexivity. Qed.

Example parseFloat_overflow : parseFloat "1.7976931348623159e308" = infinity.
Proof. reflexivity. Qed.

Example parseFloat_least : parseFloat "5e-324" = 0x1p-1074%float.
Proof. reflexivity. Qed.

Example parseFloat_tie_to_even : parseFloat "9007199254740993" = 9007199254740992%float.
Proof. reflexivity. Qed.

Example parseFloat_trailing_point : parseFloat "5.e2" = 500%float.
Proof. reflexivity. Qed.

Example parseFloat_lone_point : isNaN (parseFloat ".") = true.
Proof. reflexivity. Qed.

Example parseFloat_negative_zero : parseFloat "-0" = neg_zero.
Proof. reflexivity. Qed.

(** ** Derived views *)

Example smallLedger_search :
  map Expense.id (filteredExpenses ascii_toLowerCase smallLedger "T" "Travel")
  = ["1700000000003"; "1700000000001"].
Proof. vm_compute. reflexivity. Qed.

Example smallLedger_total :
  totalExpenses ascii_toLowerCase smallLedger "" "all" = 105.5%float.
Proof. vm_compute. reflexivity. Qed.

Example smallLedger_totals :
  categoryTotals ascii_toLowerCase smallLedger "" "all"
  = [("Travel", Num 55.5%float); ("Food & Dining", Num 50%float)].
Proof. vm_compute. reflexivity. Qed.

Example Object_entries_order :
  keys (Object_entries
          [("b", Num 1%float); ("10", Num 2%float); ("9", Num 3%float);
           ("01", Num 1%float); ("4294967295", Num 0%float); ("0", Num 5%float)])
  = ["0"; "9"; "10"; "b"; "01"; "4294967295"].
Proof. vm_compute. reflexivity. Qed.

(** Text that does not parse passes the amount test of the manual form,
    which compares [NaN <= 0]; an [<input type="number">] does not deliver
    such text. *)
Example unparsable_amount_passes_validation :
  snd (handleManualSubmit
         (setManualCategory "Travel" (setManualAmount "abc" initialState)))
  <> None.
Proof. vm_compute. discriminate. Qed.

(** ** Witnesses and counterexamples *)



(** C3 (witness). *)
Lemma valid_manual_expense_witness :
  exists st1 message,
    handleManualSubmit filledForm
    = (st1, Some (callAIAgent message AGENT_ID None, AwaitManualAgent "20" "Travel" ""))
    /\ expenses st1 = [].
Proof.
  destruct (valid_manual_expense_is_prepended showNumber filledForm)
    as [st1 [message [Hrun [Hexp _]]]].
  - vm_compute. reflexivity.
  - vm_compute. discriminate.
  - exists st1, message. split; assumption.
Defined.

(** C5 (witness). *)
Lemma invalid_manual_entry_witness :
  calls (dispatch showNumber showNumber (pageOf negativeForm) ClickAddExpense) = []
  /\ ledger (dispatch showNumber showNumber (pageOf negativeForm) ClickAddExpense) = [].
Proof.
  destruct (invalid_manual_entry_is_rejected showNumber showNumber (pageOf negativeForm))
    as [Hcalls [_ [Hledger _]]].
  - right. left. split; vm_compute; reflexivity.
  - split; assumption.
Defined.

(** C6 (witness). *)
Lemma failure_witness :
  ledger (dispatch showNumber showNumber submittedPage
            (Settle 0 (ManualReply agentError) (clockAt 1700000002000)))
  = ledger submittedPage.
Proof.
  destruct (failure_leaves_ledger_unchanged showNumber showNumber submittedPage 0
              (AwaitManualAgent "20" "Travel" "") (ManualReply agentError)
              (clockAt 1700000002000))
    as [Hledger _].
  - vm_compute. reflexivity.
  - vm_compute. reflexivity.
  - exact Hledger.
Defined.

(** C7 (witness). *)
Lemma confirm_without_candidates_witness :
  dispatch showNumber showNumber initialSystem
    (ClickConfirmImport (clockAt 1700000002000))
  = initialSystem.
Proof.
  destruct (confirm_without_candidates_is_noop showNumber showNumber initialSystem
              (ClickConfirmImport (clockAt 1700000002000)))
    as [Hsame _].
  - left. exists (clockAt 1700000002000). split; reflexivity.
  - exact Hsame.
Defined.




(* ================================================================== *)
(** * 16. Further properties of the derived views *)
(* ================================================================== *)

Lemma string_app_assoc (a b c : string) : (a ++ b) ++ c = a ++ b ++ c.
Proof. induction a as [|x a IH]; simpl; [reflexivity | now rewrite IH]. Qed.

Lemma string_app_nil_r (a : string) : a ++ "" = a.
Proof. induction a as [|x a IH]; simpl; [reflexivity | now rewrite IH]. Qed.

Lemma Substring_trans (a b c : string) : Substring a b -> Substring b c -> Substring a c.
Proof.
  intros [p1 [r1 ->]] [p2 [r2 ->]].
  exists (p2 ++ p1), (r1 ++ r2). now rewrite !string_app_assoc.
Qed.

Lemma includes_empty (s : string) : includes s "" = true.
Proof. destruct s; reflexivity. Qed.

(** X1. With the search box empty and the filter on 'all' (the initial
    values) the filtered list is the whole ledger, in its order, and the
    displayed total is the sum over the whole ledger. *)
Theorem default_filter_keeps_every_record
  (toLowerCase : string -> string) (expenses : list Expense.t) :
  toLowerCase "" = "" ->
  filteredExpenses toLowerCase expenses "" "all" = expenses
  /\ totalExpenses toLowerCase expenses "" "all" = sum_amounts expenses.
Proof.
  intros Hlower.
  assert (E : filteredExpenses toLowerCase expenses "" "all" = expenses).
  { unfold filteredExpenses. apply filter_all_true. intros e _.
    unfold matchesSearch, matchesCategory. rewrite Hlower, includes_empty.
    reflexivity. }
  split; [exact E |].
  unfold totalExpenses. rewrite E. apply fold_left_sum_amounts.
Qed.

Lemma filter_filter_implied {A : Type} (f g : A -> bool) (l : list A) :
  (forall x, g x = true -> f x = true) -> filter g (filter f l) = filter g l.
Proof.
  intros H. induction l as [|x l IH]; simpl; [reflexivity |].
  destruct (f x) eqn:Ef; simpl.
  - destruct (g x); now rewrite IH.
  - destruct (g x) eqn:Eg; [| exact IH].
    apply H in Eg. congruence.
Qed.

(** X2. A longer search text narrows the result whenever its lower-cased
    form contains the lower-cased form of the shorter one: the new filtered
    list is then the old filtered list filtered again, so no record comes
    back that the old text had excluded.  (The condition is on the
    lower-cased texts because lower-casing need not work piece by piece.) *)
Theorem extending_the_query_refines_the_result
  (toLowerCase : string -> string) (expenses : list Expense.t)
  (query query' filterCategory : string) :
  Substring (toLowerCase query) (toLowerCase query') ->
  filteredExpenses toLowerCase
    (filteredExpenses toLowerCase expenses query filterCategory) query' filterCategory
  = filteredExpenses toLowerCase expenses query' filterCategory.
Proof.
  intros Hq. unfold filteredExpenses.
  apply filter_filter_implied. intros e He.
  apply andb_true_iff in He. destruct He as [Hs Hc].
  apply andb_true_iff. split; [| exact Hc].
  apply matchesSearch_spec. apply matchesSearch_spec in Hs.
  destruct Hs as [Hs | Hs]; [left | right]; exact (Substring_trans _ _ _ Hq Hs).
Qed.


Lemma In_sort_insert (e a : string * Total) (l : list (string * Total)) :
  In e (sort_insert a l) <-> e = a \/ In e l.
Proof.
  induction l as [|b l IH]; simpl.
  - intuition congruence.
  - destruct (sorts_after a b); simpl.
    + rewrite IH. intuition congruence.
    + intuition congruence.
Qed.

Lemma In_sort (e : string * Total) (l : list (string * Total)) :
  In e (sort l) <-> In e l.
Proof.
  unfold sort. induction l as [|a l IH]; simpl; [tauto |].
  rewrite In_sort_insert, IH. intuition congruence.
Qed.

Lemma hd_error_In {A : Type} (l : list A) (x : A) : hd_error l = Some x -> In x l.
Proof. destruct l; simpl; [discriminate | intros [= ->]; now left]. Qed.

(** X4. Whatever the amounts are, a top category that is shown is a
    category of the filtered list, shown with the total that the totals
    object holds for it; and nothing is shown ('None') exactly when the
    totals object is empty, as it is for an empty filtered list. *)
Theorem top_category_is_an_entry
  (toLowerCase : string -> string) (expenses : list Expense.t)
  (searchQuery filterCategory : string) :
  let filtered := filteredExpenses toLowerCase expenses searchQuery filterCategory in
  let totals := categoryTotals toLowerCase expenses searchQuery filterCategory in
  let top := topCategory toLowerCase expenses searchQuery filterCategory in
  (forall k t, top = Some (k, t) ->
     In k (categories filtered) /\ own_property totals k = Some t
     /\ topCategoryLabel top = k)
  /\ (top = None <-> totals = [])
  /\ (filtered = [] -> topCategoryLabel top = "None").
Proof.
  intros filtered totals top.
  assert (Hnd : NoDup (keys totals))
    by (apply keys_accumulate_all_NoDup; constructor).
  split; [| split].
  - intros k t Htop. pose proof Htop as Hin.
    unfold top, topCategory in Hin. apply hd_error_In in Hin.
    apply (proj1 (In_sort _ _)) in Hin. apply (proj1 (In_Object_entries _ _)) in Hin.
    fold totals in Hin. split; [| split].
    + assert (Hk : In k (keys totals))
        by (unfold keys; change k with (fst (k, t)); now apply in_map).
      apply keys_accumulate_all_In in Hk. now destruct Hk.
    + now apply In_own_property.
    + now rewrite Htop.
  - unfold top, topCategory. fold totals. split.
    + intros Hnone. destruct totals as [|e o] eqn:E; [reflexivity |].
      assert (Hin : In e (sort (Object_entries (e :: o))))
        by (apply (proj2 (In_sort _ _)), (proj2 (In_Object_entries _ _)); now left).
      destruct (sort (Object_entries (e :: o))); [contradiction | discriminate].
    + intros ->. reflexivity.
  - intros Hempty. unfold top, topCategory, categoryTotals. fold filtered.
    now rewrite Hempty.
Qed.

(** X5. With a category filter other than 'all', every record of the
    filtered list has exactly that category, so the top category card can
    only show that category or 'None'. *)
Theorem category_filter_fixes_the_top_category
  (toLowerCase : string -> string) (expenses : list Expense.t)
  (searchQuery filterCategory : string) :
  filterCategory <> "all" ->
  Forall (fun e => Expense.category e = filterCategory)
    (filteredExpenses toLowerCase expenses searchQuery filterCategory)
  /\ (topCategoryLabel (topCategory toLowerCase expenses searchQuery filterCategory)
      = filterCategory
      \/ topCategoryLabel (topCategory toLowerCase expenses searchQuery filterCategory)
         = "None").
Proof.
  intros Hall.
  assert (Hf : Forall (fun e => Expense.category e = filterCategory)
                 (filteredExpenses toLowerCase expenses searchQuery filterCategory)).
  { apply Forall_forall. intros e He. unfold filteredExpenses in He.
    apply filter_In in He. destruct He as [_ He].
    apply andb_true_iff in He. destruct He as [_ Hc].
    apply matchesCategory_spec in Hc. destruct Hc as [Hc | Hc]; [contradiction | exact Hc]. }
  split; [exact Hf |].
  destruct (topCategory toLowerCase expenses searchQuery filterCategory)
    as [[k t] |] eqn:Etop; [left | now right].
  simpl. pose proof Etop as Hin.
  unfold topCategory in Hin. apply hd_error_In in Hin.
  apply (proj1 (In_sort _ _)) in Hin. apply (proj1 (In_Object_entries _ _)) in Hin.
  assert (Hk : In k (keys (categoryTotals toLowerCase expenses searchQuery filterCategory)))
    by (unfold keys; change k with (fst (k, t)); now apply in_map).
  apply keys_accumulate_all_In in Hk. destruct Hk as [[] | Hk].
  unfold categories in Hk. apply in_map_iff in Hk. destruct Hk as [e [<- He]].
  rewrite Forall_forall in Hf. now apply Hf.
Qed.

Section ComparisonSign.

Local Open Scope Z_scope.

Lemma isNaN_true (x : number) : isNaN x = true <-> Prim2SF x = S754_nan.
Proof.
  split.
  - intros H. destruct (Prim2SF x) eqn:E; try reflexivity;
      assert (isNaN x = false) by (apply isNaN_false; congruence); congruence.
  - intros E. destruct (isNaN x) eqn:N; [reflexivity |].
    apply isNaN_false in N. contradiction.
Qed.

Lemma sub_NaN (a b : number) :
  isNaN a = true \/ isNaN b = true -> isNaN (b - a)%float = true.
Proof.
  intros H. apply isNaN_true. rewrite sub_spec. unfold SF64sub.
  destruct H as [H | H]; apply isNaN_true in H; rewrite H.
  - now destruct (Prim2SF b).
  - reflexivity.
Qed.

End ComparisonSign.

(** X6. The comparison [(a, b) => b[1] - a[1]] is greater than 0 exactly
    when the total of [a] is less than the total of [b]: the difference of
    two binary64 numbers has the sign of their order (it neither wraps nor
    rounds to 0).  When one of the two totals is NaN or not a number, the
    comparison is NaN, and so not greater than 0. *)
Theorem comparison_is_positive_for_a_smaller_total (a b : string * Total) :
  (0 <? comparefn a b)%float = (ToNumber (snd a) <? ToNumber (snd b))%float
  /\ (isNaN (ToNumber (snd a)) = true \/ isNaN (ToNumber (snd b)) = true ->
      isNaN (comparefn a b) = true /\ (0 <? comparefn a b)%float = false).
Proof.
  assert (Hnan : isNaN (ToNumber (snd a)) = true \/ isNaN (ToNumber (snd b)) = true ->
                 isNaN (comparefn a b) = true /\ (0 <? comparefn a b)%float = false).
  { intros H. assert (N : isNaN (comparefn a b) = true) by (now apply sub_NaN).
    split; [exact N | now apply ltb_NaN_r]. }
  split; [| exact Hnan].
  destruct (isNaN (ToNumber (snd a))) eqn:Na.
  - rewrite (ltb_NaN_l (ToNumber (snd a))) by exact Na.
    apply Hnan. now left.
  - destruct (isNaN (ToNumber (snd b))) eqn:Nb.
    + rewrite (ltb_NaN_r (ToNumber (snd a))) by exact Nb.
      apply Hnan. now right.
    + unfold comparefn. now apply sub_positive.
Qed.

(* ================================================================== *)
(** * 17. Further properties of the ledger operations *)
(* ================================================================== *)

(** ** Deletion *)

Lemma setExpenses_same (f : list Expense.t -> list Expense.t) (st : State) :
  f (expenses st) = expenses st -> setExpenses f st = st.
Proof. intros H. unfold setExpenses. rewrite H. now destruct st. Qed.

Lemma filter_idempotent {A : Type} (f : A -> bool) (l : list A) :
  filter f (filter f l) = filter f l.
Proof. apply filter_filter_implied. auto. Qed.

(** X7. After the delete button of an id was clicked, no record with that
    id is left; clicking it again changes nothing; and deleting an id that
    no record has changes nothing at all. *)
Theorem deleted_id_is_gone (id : string) (st : State) :
  ~ In id (ids (expenses (deleteExpense id st)))
  /\ deleteExpense id (deleteExpense id st) = deleteExpense id st
  /\ (~ In id (ids (expenses st)) -> deleteExpense id st = st).
Proof.
  split; [| split].
  - cbn. unfold ids. intros Hin. apply in_map_iff in Hin.
    destruct Hin as [e [Eid He]]. apply filter_In in He. destruct He as [_ He].
    apply negb_true_iff in He. apply String.eqb_neq in He. contradiction.
  - unfold deleteExpense. apply setExpenses_same. cbn. apply filter_idempotent.
  - intros Hnot. unfold deleteExpense. apply setExpenses_same.
    now apply filter_other_ids_absent.
Qed.

(** ** Spreadsheet import *)

Lemma map_indexed_from {A B : Type} (g : A -> B) (l : list A) (start : nat) :
  map (fun '(_, x) => g x) (combine (seq start (List.length l)) l) = map g l.
Proof.
  revert start; induction l as [|x l IH]; intros start; simpl; [reflexivity |].
  now rewrite IH.
Qed.

Lemma length_indexed {A : Type} (l : list A) : List.length (indexed l) = List.length l.
Proof.
  unfold indexed. rewrite length_combine, length_seq. apply Nat.min_id.
Qed.

(** X8. 'Confirm Import' puts one record for each row of the preview in
    front of the ledger, in the order of the rows: each from the
    spreadsheet, without confidence, with the amount and the category that
    the preview table showed for its row, and with ids that differ from one
    another whatever the clock does.  It empties the preview, so a second
    click adds nothing. *)
Theorem import_appends_the_whole_preview
  (formatCurrency : number -> string) (clock : Clock) (st : State) :
  let preview := excelPreview (excelUpload st) in
  let st' := handleExcelConfirm clock st in
  exists new,
    expenses st' = (new ++ expenses st)%list
    /\ List.length new = List.length preview
    /\ NoDup (ids new)
    /\ Forall (fun e => Expense.source e = excel /\ Expense.confidence e = None) new
    /\ map (fun e => formatCurrency (Expense.amount e)) new
       = map (previewAmountCell formatCurrency) preview
    /\ map Expense.category new = map previewCategoryCell preview
    /\ (forall clock', handleExcelConfirm clock' st' = st').
Proof.
  intros preview st'.
  exists (map (fun '(index, item) => expenseOfItem clock index item) (indexed preview)).
  split; [apply handleExcelConfirm_expenses |].
  split; [now rewrite length_map, length_indexed |].
  split; [apply imported_ids_NoDup |].
  split; [| split; [| split]].
  - apply Forall_forall. intros e He. apply in_map_iff in He.
    destruct He as [[index item] [<- _]]. now split.
  - rewrite map_map. unfold indexed.
    rewrite <- (map_indexed_from (previewAmountCell formatCurrency) preview 0).
    apply map_ext. now intros [index item].
  - rewrite map_map. unfold indexed.
    rewrite <- (map_indexed_from previewCategoryCell preview 0).
    apply map_ext. now intros [index item].
  - intros clock'. subst st' preview. unfold handleExcelConfirm at 2 3.
    destruct (excelPreview (excelUpload st)) as [|item items] eqn:E.
    + unfold handleExcelConfirm. now rewrite E.
    + reflexivity.
Qed.

(** X9. A successful spreadsheet reply whose [expenses] is an empty array
    gives an empty preview, whatever [items] holds: the page reports 'Found
    0 expense(s) in file' without an error and offers no 'Confirm
    Import'. *)
Theorem empty_expenses_array_gives_an_empty_preview
  (toLowerCase : string -> string)
  (r : AgentResult SpreadsheetResult) (resp : AgentResponse SpreadsheetResult)
  (resultData : SpreadsheetResult) (clock clock' : Clock) (st : State) :
  agent_succeeded r = Some true ->
  response r = Some resp ->
  result resp = Some resultData ->
  expenses_array resultData = Some [] ->
  let st' := processExcelFile_settled (Fulfilled r) clock st in
  excelPreview (excelUpload st') = []
  /\ excelError (excelUpload st') = excelError (excelUpload st)
  /\ notifications st'
     = (notifications st
        ++ [Notification.mk info "Found 0 expense(s) in file"
              (Z_toString (Date_now clock 0))])%list
  /\ offered toLowerCase st' (ClickConfirmImport clock') = false.
Proof.
  intros Hok Hresp Hres He. cbn zeta.
  unfold processExcelFile_settled. rewrite Hok, Hresp.
  destruct resp as [status0 message0 result0]. cbn in Hres. subst result0.
  unfold previewData. rewrite He. cbn.
  repeat split. now destruct (excelFile (excelUpload st)).
Qed.

(** X10. 'Cancel' resets the selection but not the call that is
    outstanding.  A confirm directly after 'Cancel' changes nothing.  A
    spreadsheet or receipt reply that settles while no file is selected
    leaves no confirm on offer, and selecting a file clears the preview (or
    the extracted candidate).  But a successful reply to the cancelled
    upload that settles after the next file was selected fills the preview
    (or the candidate) under the new file, where a filled preview can be
    confirmed. *)
Theorem cancel_does_not_stop_the_reply
  (toLowerCase : string -> string) (formatCurrency Number_toString : number -> string)
  (clock clock' : Clock) (st : State) :
  handleExcelConfirm clock (handleExcelCancel st) = handleExcelCancel st
  /\ handleImageConfirm formatCurrency clock (handleImageCancel st) = handleImageCancel st
  /\ (forall r st0,
        excelFile (excelUpload st0) = None ->
        offered toLowerCase (processExcelFile_settled r clock' st0)
          (ClickConfirmImport clock) = false)
  /\ (forall r st0,
        imageFile (imageUpload st0) = None ->
        offered toLowerCase (processImage_settled Number_toString r clock' st0)
          (ClickConfirmEntry clock) = false)
  /\ (forall file st0,
        excelPreview (excelUpload (fst (handleExcelSelect (Some file) st0))) = []
        /\ extractedData (imageUpload (fst (handleImageSelect (Some file) st0))) = None)
  /\ (forall file r resp resultData,
        agent_succeeded r = Some true ->
        response r = Some resp ->
        result resp = Some resultData ->
        let stale :=
          processExcelFile_settled (Fulfilled r) clock'
            (fst (handleExcelSelect (Some file) (handleExcelCancel st))) in
        excelFile (excelUpload stale) = Some file
        /\ excelPreview (excelUpload stale) = previewData resultData
        /\ (previewData resultData <> [] ->
            offered toLowerCase stale (ClickConfirmImport clock) = true))
  /\ (forall file r resp resultData,
        agent_succeeded r = Some true ->
        response r = Some resp ->
        result resp = Some resultData ->
        let stale :=
          processImage_settled Number_toString (Fulfilled r) clock'
            (fst (handleImageSelect (Some file) (handleImageCancel st))) in
        imageFile (imageUpload stale) = Some file
        /\ extractedData (imageUpload stale) = Some (extracted Number_toString resultData)
        /\ offered toLowerCase stale (ClickConfirmEntry clock) = true).
Proof.
  split; [reflexivity |]. split; [reflexivity |].
  split; [| split; [| split; [| split]]].
  - intros r st0 Hnone.
    assert (E : excelFile (excelUpload (processExcelFile_settled r clock' st0)) = None).
    { unfold processExcelFile_settled.
      destruct r as [a |]; [| exact Hnone].
      destruct (agent_succeeded a) as [[|] |]; [| | exact Hnone].
      - destruct (response a) as [[? ? [?|]] |]; exact Hnone.
      - destruct (response_message a _); exact Hnone. }
    cbn [offered]. now rewrite E.
  - intros r st0 Hnone.
    assert (E : imageFile (imageUpload
                             (processImage_settled Number_toString r clock' st0)) = None).
    { unfold processImage_settled.
      destruct r as [a |]; [| exact Hnone].
      destruct (agent_succeeded a) as [[|] |]; [| | exact Hnone].
      - destruct (response a) as [[? ? [?|]] |]; exact Hnone.
      - destruct (response_message a _); exact Hnone. }
    cbn [offered]. now rewrite E.
  - intros file st0. split; reflexivity.
  - intros file r resp resultData Hok Hresp Hres stale.
    unfold stale, processExcelFile_settled. rewrite Hok, Hresp.
    destruct resp as [status0 message0 result0]. cbn in Hres. subst result0.
    split; [reflexivity |]. split; [reflexivity |].
    intros Hrows. cbn. now destruct (previewData resultData).
  - intros file r resp resultData Hok Hresp Hres stale.
    unfold stale, processImage_settled. rewrite Hok, Hresp.
    destruct resp as [status0 message0 result0]. cbn in Hres. subst result0.
    split; [reflexivity |]. split; reflexivity.
Qed.

(** ** Receipt image *)

Lemma or_value_truthy (x y : JsValue) :
  truthy_value y = true -> truthy_value (or_value x y) = true.
Proof.
  intros Hy. unfold or_value. destruct (truthy_value x) eqn:E; assumption.
Qed.


(** X12. The user's edits are merged into the candidate before the commit:
    after editing amount, category and notes, 'Confirm Entry' prepends one
    record with the edited category and notes, the edited amount parsed (0
    when it does not parse), the image as source and the overall
    confidence of the extraction; without a candidate the edits change
    nothing. *)
Theorem edits_are_merged_before_commit
  (formatCurrency : number -> string) (clock : Clock) (st : State)
  (amount category notes : string) :
  let edited :=
    editExtractedNotes notes
      (editExtractedCategory category (editExtractedAmount amount st)) in
  match extractedData (imageUpload st) with
  | Some data =>
      expenses (handleImageConfirm formatCurrency clock edited)
      = Expense.mk (Z_toString (Date_now clock 0))
          (or_number (parseFloat amount) 0%float) category notes
          (Date_toISOString clock 0) image
          (Some (Confidence.overall (ExtractedExpense.confidence data)))
        :: expenses st
  | None => edited = st
  end.
Proof.
  cbn zeta.
  destruct (extractedData (imageUpload st)) as [data |] eqn:E.
  - rewrite handleImageConfirm_expenses. cbn. rewrite E. reflexivity.
  - unfold editExtractedNotes, editExtractedCategory, editExtractedAmount,
      setExtractedData, withImageUpload. cbn. rewrite E.
    destruct st as [? ? ? ? ? ? [? ? ? ?]]. cbn in *. now subst.
Qed.

(** ** Manual form *)

(** X13. When the agent call of a manual entry settles, the loading flag
    is cleared whatever the outcome.  After a failure the form still holds
    what the user had typed, so the entry can be sent again; after a
    success the three fields are empty. *)
Theorem manual_form_after_the_reply
  (formatCurrency : number -> string) (amount category notes : string)
  (r : Settled (AgentResult unit)) (clock : Clock) (st : State) :
  let st' :=
    handleManualSubmit_settled formatCurrency amount category notes r clock st in
  manualLoading (manualEntry st') = false
  /\ (agent_failed false r = true ->
      manualAmount (manualEntry st') = manualAmount (manualEntry st)
      /\ manualCategory (manualEntry st') = manualCategory (manualEntry st)
      /\ manualNotes (manualEntry st') = manualNotes (manualEntry st))
  /\ (agent_failed false r = false ->
      manualAmount (manualEntry st') = ""
      /\ manualCategory (manualEntry st') = ""
      /\ manualNotes (manualEntry st') = ""
      /\ manualError (manualEntry st') = manualError (manualEntry st)).
Proof.
  cbn zeta. unfold handleManualSubmit_settled, agent_failed.
  destruct r as [a |]; [| cbn; repeat split; discriminate].
  destruct (agent_succeeded a) as [[|] |] eqn:Es.
  - unfold agent_succeeded in Es. destruct (success_flag a); [| discriminate].
    destruct (response a) as [[? ? [?|]] |]; try discriminate;
      cbn; repeat split; discriminate.
  - unfold response_message. destruct (response a) as [resp |];
      cbn; repeat split; discriminate.
  - cbn; repeat split; discriminate.
Qed.

(** ** Notifications *)

Lemma filter_other_notifications_absent (id : string) (l : list Notification.t) :
  ~ In id (map Notification.id l) ->
  filter (fun n => negb (String.eqb (Notification.id n) id)) l = l.
Proof.
  induction l as [|n l IH]; simpl; intros H; [reflexivity |].
  destruct (String.eqb_spec (Notification.id n) id) as [E | E]; simpl.
  - exfalso. apply H. now left.
  - f_equal. apply IH. intros Hin. apply H. now right.
Qed.

(** X14. When the timer of a notification fires, every notification with
    its id goes and the others stay in their order; so a notification added
    at a clock value that no notification on display was made from is gone
    after its timer, and the display is what it was before. *)
Theorem notification_expires (type : NotificationType) (message : string) (now : Z)
  (st : State) :
  ~ In (Z_toString now) (map Notification.id (notifications st)) ->
  notifications (expireNotification (Z_toString now) (addNotification type message now st))
  = notifications st
  /\ forall id st0,
       ExactlyThose (fun n => Notification.id n <> id) (notifications st0)
         (notifications (expireNotification id st0)).
Proof.
  intros Hfresh. split.
  - cbn. rewrite filter_app. simpl. rewrite String.eqb_refl. simpl.
    rewrite app_nil_r. now apply filter_other_notifications_absent.
  - intros id st0. cbn. apply filter_ExactlyThose. intros n.
    rewrite negb_true_iff. split.
    + intros H E. apply String.eqb_eq in E. congruence.
    + intros H. now apply String.eqb_neq.
Qed.

(* ================================================================== *)
(** * 18. Drops that the page turns away *)
(* ================================================================== *)

Lemma substring_all (s : string) : substring 0 (String.length s) s = s.
Proof. induction s as [|c s IH]; simpl; [reflexivity | now rewrite IH]. Qed.

Lemma substring_suffix (stem suffix : string) :
  substring (String.length stem) (String.length suffix) (stem ++ suffix) = suffix.
Proof. induction stem as [|c stem IH]; simpl; [apply substring_all | exact IH]. Qed.

Lemma length_string_app (a b : string) :
  String.length (a ++ b) = String.length a + String.length b.
Proof. induction a as [|c a IH]; simpl; [reflexivity | now rewrite IH]. Qed.

Lemma substring_prefix_suffix (n k : nat) (s : string) :
  n + k = String.length s -> exists stem, s = stem ++ substring n k s.
Proof.
  revert s; induction n as [|n IH]; intros s H.
  - exists "". simpl in *. rewrite H. now rewrite substring_all.
  - destruct s as [|c s]; [discriminate |]. simpl in H. injection H as H.
    destruct (IH s H) as [stem E]. exists (String c stem). simpl. now rewrite <- E.
Qed.

Lemma endsWith_spec (s suffix : string) :
  endsWith s suffix = true <-> exists stem, s = stem ++ suffix.
Proof.
  unfold endsWith. rewrite andb_true_iff, Nat.leb_le. split.
  - intros [Hle E]. apply String.eqb_eq in E.
    destruct (substring_prefix_suffix (String.length s - String.length suffix)
                (String.length suffix) s) as [stem Es]; [lia |].
    exists stem. now rewrite E in Es.
  - intros [stem ->]. rewrite length_string_app. split; [lia |].
    replace (String.length stem + String.length suffix - String.length suffix)
      with (String.length stem) by lia.
    rewrite substring_suffix. apply String.eqb_refl.
Qed.

(** X15. A drop on the spreadsheet zone is turned away when nothing was
    dropped or the file name does not end in '.xlsx', '.xls' or '.csv'
    (case matters): no upload starts, no file is selected, and the ledger,
    the notifications and the preview stay as they are.  The message
    'Please upload a valid Excel or CSV file' is stored, but the page draws
    the error only below a selected file, so it is not shown.  A file whose
    name has one of the three endings is selected and uploaded. *)
Theorem spreadsheet_drop_is_checked_by_name (dropped : option File.t) (st : State) :
  excelFile (excelUpload st) = None ->
  let run := handleExcelDrop dropped st in
  match dropped with
  | Some file =>
      (exists stem ext,
         In ext [".xlsx"; ".xls"; ".csv"] /\ File.name file = stem ++ ext)
      -> snd run = Some (uploadFiles file, AwaitExcelUpload file)
         /\ excelFile (excelUpload (fst run)) = Some file
  | None => True
  end
  /\ ((forall file, dropped = Some file ->
         forall stem ext, In ext [".xlsx"; ".xls"; ".csv"] ->
                          File.name file <> stem ++ ext)
      -> snd run = None
         /\ fst run = setExcelError "Please upload a valid Excel or CSV file" st
         /\ excelErrorShown (fst run) = false).
Proof.
  intros Hnone run. split.
  - destruct dropped as [file |]; [| exact I].
    intros [stem [ext [Hext Hname]]]. unfold run, handleExcelDrop.
    assert (E : endsWith (File.name file) ".xlsx" || endsWith (File.name file) ".xls"
                || endsWith (File.name file) ".csv" = true).
    { simpl in Hext. rewrite !orb_true_iff.
      destruct Hext as [<- | [<- | [<- | []]]].
      - left; left. apply endsWith_spec. now exists stem.
      - left; right. apply endsWith_spec. now exists stem.
      - right. apply endsWith_spec. now exists stem. }
    rewrite E. split; reflexivity.
  - intros Hbad. unfold run, handleExcelDrop.
    assert (R : excelErrorShown (setExcelError "Please upload a valid Excel or CSV file" st)
                = false).
    { unfold excelErrorShown. cbn. now rewrite Hnone. }
    destruct dropped as [file |]; [| now repeat split].
    assert (E : endsWith (File.name file) ".xlsx" || endsWith (File.name file) ".xls"
                || endsWith (File.name file) ".csv" = false).
    { rewrite !orb_false_iff. repeat split.
      - destruct (endsWith (File.name file) ".xlsx") eqn:E; [| reflexivity].
        apply endsWith_spec in E. destruct E as [stem E].
        exfalso. apply (Hbad file eq_refl stem ".xlsx"); simpl; auto.
      - destruct (endsWith (File.name file) ".xls") eqn:E; [| reflexivity].
        apply endsWith_spec in E. destruct E as [stem E].
        exfalso. apply (Hbad file eq_refl stem ".xls"); simpl; auto.
      - destruct (endsWith (File.name file) ".csv") eqn:E; [| reflexivity].
        apply endsWith_spec in E. destruct E as [stem E].
        exfalso. apply (Hbad file eq_refl stem ".csv"); simpl; auto. }
    rewrite E. now repeat split.
Qed.

(** X16. A drop on the image zone is turned away when nothing was dropped
    or the type of the file does not start with 'image/': no upload
    starts, no image is selected, and nothing but the stored error text
    changes; as the page draws that text only below a selected image, the
    message is not shown.  A file of an image type is selected and
    uploaded, and a candidate of an earlier extraction is dropped. *)
Theorem image_drop_is_checked_by_type (dropped : option File.t) (st : State) :
  imageFile (imageUpload st) = None ->
  let run := handleImageDrop dropped st in
  match dropped with
  | Some file =>
      (exists subtype, File.type file = "image/" ++ subtype)
      -> snd run = Some (uploadFiles file, AwaitImageUpload file)
         /\ imageFile (imageUpload (fst run)) = Some file
         /\ extractedData (imageUpload (fst run)) = None
  | None => True
  end
  /\ ((forall file, dropped = Some file ->
         forall subtype, File.type file <> "image/" ++ subtype)
      -> snd run = None
         /\ fst run = setImageError "Please upload a valid image file" st
         /\ imageErrorShown (fst run) = false).
Proof.
  intros Hnone run. split.
  - destruct dropped as [file |]; [| exact I].
    intros Htype. apply (proj2 (startsWith_spec _ _)) in Htype.
    unfold run, handleImageDrop. rewrite Htype. now repeat split.
  - intros Hbad. unfold run, handleImageDrop.
    assert (R : imageErrorShown (setImageError "Please upload a valid image file" st)
                = false).
    { unfold imageErrorShown. cbn. now rewrite Hnone. }
    destruct dropped as [file |]; [| now repeat split].
    destruct (startsWith (File.type file) "image/") eqn:E.
    + apply (proj1 (startsWith_spec _ _)) in E. destruct E as [subtype E].
      exfalso. exact (Hbad file eq_refl subtype E).
    + now repeat split.
Qed.

(* ================================================================== *)
(** * 19. Records over a run of the page *)
(* ================================================================== *)

Lemma ledger_dispatch_grows (formatCurrency Number_toString : number -> string)
  (sys : System) (ev : Event) :
  (forall id, ev <> ClickDelete id) ->
  exists new,
    ledger (dispatch formatCurrency Number_toString sys ev) = (new ++ ledger sys)%list.
Proof.
  intros Hnd. rewrite ledger_dispatch.
  destruct ev; try (now exists []).
  - eexists. apply handleExcelConfirm_expenses.
  - unfold handleImageConfirm.
    destruct (extractedData (imageUpload (ui sys))) as [data |]; [| now exists []].
    eexists [_]. reflexivity.
  - exfalso. now apply (Hnd id).
  - destruct reply as [r | r | r | r]; try (now exists []).
    destruct (nth_error (pending sys) n) as [[amount category notes | | | |] |];
      try (now exists []).
    rewrite handleManualSubmit_settled_expenses.
    destruct r as [a |]; [| now exists []].
    destruct (agent_succeeded a) as [[|] |]; try (now exists []).
    eexists [_]. reflexivity.
Qed.

(** X17. The ledger only grows at its head unless a delete button is
    clicked: after a run without a delete, the ledger of before is the
    tail of the ledger of after, with every record and the order
    unchanged. *)
Theorem ledger_grows_at_the_head
  (formatCurrency Number_toString : number -> string)
  (events : list Event) (sys : System) :
  (forall id, ~ In (ClickDelete id) events) ->
  exists new,
    ledger (run_events formatCurrency Number_toString sys events)
    = (new ++ ledger sys)%list.
Proof.
  revert sys; induction events as [|ev events IH]; intros sys Hnd.
  - now exists [].
  - change (run_events formatCurrency Number_toString sys (ev :: events))
      with (run_events formatCurrency Number_toString
              (dispatch formatCurrency Number_toString sys ev) events).
    destruct (IH (dispatch formatCurrency Number_toString sys ev)) as [new E].
    { intros id Hin. apply (Hnd id). now right. }
    destruct (ledger_dispatch_grows formatCurrency Number_toString sys ev) as [new' E'].
    { intros id ->. apply (Hnd id). now left. }
    exists (new ++ new')%list. rewrite E, E'.
    now rewrite app_assoc.
Qed.

(** X18. A record leaves the ledger only through the delete button of its
    own id: whatever else happens in a run, uploads, confirms, cancels,
    failures and deletions of other ids included, a record of the ledger is
    still in it, unchanged, after the run. *)
Theorem record_stays_until_deleted
  (formatCurrency Number_toString : number -> string)
  (events : list Event) (sys : System) (e : Expense.t) :
  In e (ledger sys) ->
  ~ In (ClickDelete (Expense.id e)) events ->
  In e (ledger (run_events formatCurrency Number_toString sys events)).
Proof.
  revert sys; induction events as [|ev events IH]; intros sys Hin Hnd.
  - exact Hin.
  - change (run_events formatCurrency Number_toString sys (ev :: events))
      with (run_events formatCurrency Number_toString
              (dispatch formatCurrency Number_toString sys ev) events).
    apply IH; [| intros H; apply Hnd; now right].
    assert (D : (exists id, ev = ClickDelete id) \/ forall id, ev <> ClickDelete id).
    { destruct ev; try (right; intros ? ?; discriminate). left. now eexists. }
    destruct D as [[id ->] | D].
    2: { destruct (ledger_dispatch_grows formatCurrency Number_toString sys ev D)
           as [new E].
         rewrite E. apply in_or_app. now right. }
    rewrite ledger_dispatch. apply filter_In. split; [exact Hin |].
    apply negb_true_iff. apply String.eqb_neq. intros E. apply Hnd. left. now rewrite E.
Qed.

(** X19. While no append reads a clock value that an earlier append has
    read, the ids of the ledger are pairwise different, and the delete
    button of a record removes that record and no other: the records
    before and after it stay in their order. *)
Theorem delete_removes_one_while_clock_distinct
  (formatCurrency Number_toString : number -> string) (events : list Event)
  (e : Expense.t) :
  let sys := run_events formatCurrency Number_toString initialSystem events in
  distinct_clock formatCurrency Number_toString [] initialSystem events ->
  In e (ledger sys) ->
  NoDup (ids (ledger sys))
  /\ exists before after,
       ledger sys = (before ++ e :: after)%list
       /\ ledger (dispatch formatCurrency Number_toString sys
                    (ClickDelete (Expense.id e)))
          = (before ++ after)%list.
Proof.
  intros sys Hd Hin.
  pose proof (ids_unique_while_clock_distinct formatCurrency Number_toString events Hd)
    as Hnd.
  split; [exact Hnd |].
  exact (deleteExpense_removes_one e (ui sys) Hnd Hin).
Qed.

(* ================================================================== *)
(** * 20. Invariants of the reachable pages *)
(* ================================================================== *)

Lemma ui_finish (rest : list Pending) (sys : System) (r : Run) :
  ui (finish rest sys r) = fst r.
Proof. destruct r as [st [[request k] |]]; reflexivity. Qed.

Lemma pending_finish (rest : list Pending) (sys : System) (r : Run) :
  pending (finish rest sys r)
  = match snd r with
    | Some (_, k) => (rest ++ [k])%list
    | None => rest
    end.
Proof. destruct r as [st [[request k] |]]; reflexivity. Qed.

(** ** Confidence *)

Ltac split_on_conditions :=
  repeat match goal with
         | |- context [if ?b then _ else _] => destruct b
         | |- context [match ?x with _ => _ end] => destruct x
         end.

Lemma confidence_invariant_frame (st st' : State) :
  expenses st' = expenses st ->
  extractedData (imageUpload st') = extractedData (imageUpload st) ->
  confidence_invariant st -> confidence_invariant st'.
Proof.
  unfold confidence_invariant, candidate_confident. intros -> ->. exact id.
Qed.

Lemma confidence_invariant_no_candidate (st st' : State) :
  expenses st' = expenses st ->
  extractedData (imageUpload st') = None ->
  confidence_invariant st -> confidence_invariant st'.
Proof.
  unfold confidence_invariant, candidate_confident. intros -> ->. intros [H _].
  now split.
Qed.

Lemma handleManualSubmit_confidence (st : State) :
  confidence_invariant st -> confidence_invariant (fst (handleManualSubmit st)).
Proof.
  apply confidence_invariant_frame; unfold handleManualSubmit;
    split_on_conditions; reflexivity.
Qed.

Lemma handleManualSubmit_settled_confidence
  (formatCurrency : number -> string) (amount category notes : string)
  (r : Settled (AgentResult unit)) (clock : Clock) (st : State) :
  confidence_invariant st ->
  confidence_invariant
    (handleManualSubmit_settled formatCurrency amount category notes r clock st).
Proof.
  intros [He Hc]. split.
  - rewrite handleManualSubmit_settled_expenses.
    destruct r as [a |]; [| exact He].
    destruct (agent_succeeded a) as [[|] |]; try exact He.
    constructor; [reflexivity | exact He].
  - unfold candidate_confident in *.
    replace (extractedData (imageUpload
               (handleManualSubmit_settled formatCurrency amount category notes r clock st)))
      with (extractedData (imageUpload st)); [exact Hc |].
    unfold handleManualSubmit_settled. split_on_conditions; reflexivity.
Qed.

Lemma handleExcelDrop_confidence (file : option File.t) (st : State) :
  confidence_invariant st -> confidence_invariant (fst (handleExcelDrop file st)).
Proof.
  apply confidence_invariant_frame; unfold handleExcelDrop;
    split_on_conditions; reflexivity.
Qed.

Lemma handleExcelSelect_confidence (file : option File.t) (st : State) :
  confidence_invariant st -> confidence_invariant (fst (handleExcelSelect file st)).
Proof.
  apply confidence_invariant_frame; unfold handleExcelSelect;
    split_on_conditions; reflexivity.
Qed.

Lemma processExcelFile_uploaded_confidence (file : File.t)
  (r : Settled UploadResult) (clock : Clock) (st : State) :
  confidence_invariant st ->
  confidence_invariant (fst (processExcelFile_uploaded file r clock st)).
Proof.
  apply confidence_invariant_frame; unfold processExcelFile_uploaded;
    split_on_conditions; reflexivity.
Qed.

Lemma processExcelFile_settled_confidence
  (r : Settled (AgentResult SpreadsheetResult)) (clock : Clock) (st : State) :
  confidence_invariant st ->
  confidence_invariant (processExcelFile_settled r clock st).
Proof.
  apply confidence_invariant_frame; unfold processExcelFile_settled;
    split_on_conditions; reflexivity.
Qed.

Lemma handleExcelConfirm_confidence (clock : Clock) (st : State) :
  confidence_invariant st -> confidence_invariant (handleExcelConfirm clock st).
Proof.
  intros [He Hc]. split.
  - rewrite handleExcelConfirm_expenses. apply Forall_app. split; [| exact He].
    apply Forall_forall. intros e Hin. apply in_map_iff in Hin.
    destruct Hin as [[index item] [<- _]]. reflexivity.
  - unfold candidate_confident in *.
    replace (extractedData (imageUpload (handleExcelConfirm clock st)))
      with (extractedData (imageUpload st)); [exact Hc |].
    unfold handleExcelConfirm. split_on_conditions; reflexivity.
Qed.

Lemma handleImageDrop_confidence (file : option File.t) (st : State) :
  confidence_invariant st -> confidence_invariant (fst (handleImageDrop file st)).
Proof.
  intros H. unfold handleImageDrop.
  destruct file as [file |].
  - destruct (startsWith (File.type file) "image/").
    + now apply (confidence_invariant_no_candidate st).
    + now apply (confidence_invariant_frame st).
  - now apply (confidence_invariant_frame st).
Qed.

Lemma handleImageSelect_confidence (file : option File.t) (st : State) :
  confidence_invariant st -> confidence_invariant (fst (handleImageSelect file st)).
Proof.
  intros H. destruct file as [file |]; [| exact H].
  now apply (confidence_invariant_no_candidate st).
Qed.

Lemma processImage_uploaded_confidence (file : File.t)
  (r : Settled UploadResult) (clock : Clock) (st : State) :
  confidence_invariant st ->
  confidence_invariant (fst (processImage_uploaded file r clock st)).
Proof.
  apply confidence_invariant_frame; unfold processImage_uploaded;
    split_on_conditions; reflexivity.
Qed.

Lemma processImage_settled_confidence (Number_toString : number -> string)
  (r : Settled (AgentResult ReceiptResult)) (clock : Clock) (st : State) :
  confidence_invariant st ->
  confidence_invariant (processImage_settled Number_toString r clock st).
Proof.
  intros H. unfold processImage_settled.
  destruct r as [a |]; [| now apply (confidence_invariant_frame st)].
  destruct (agent_succeeded a) as [[|] |];
    [| | now apply (confidence_invariant_frame st)].
  - destruct (response a) as [[status0 message0 [resultData |]] |];
      try (now apply (confidence_invariant_frame st)).
    destruct H as [He _]. split; [exact He |].
    unfold candidate_confident. cbn. now apply or_value_truthy.
  - destruct (response_message a _); now apply (confidence_invariant_frame st).
Qed.

Lemma handleImageConfirm_confidence (formatCurrency : number -> string)
  (clock : Clock) (st : State) :
  confidence_invariant st ->
  confidence_invariant (handleImageConfirm formatCurrency clock st).
Proof.
  intros [He Hc]. unfold handleImageConfirm. unfold candidate_confident in Hc.
  destruct (extractedData (imageUpload st)) as [data |] eqn:E.
  - split; [| exact I]. cbn. constructor; [exact Hc | exact He].
  - split; [exact He |]. unfold candidate_confident. now rewrite E.
Qed.

Lemma edit_confidence (f : ExtractedExpense.t -> ExtractedExpense.t) (st : State) :
  (forall d, ExtractedExpense.confidence (f d) = ExtractedExpense.confidence d) ->
  confidence_invariant st ->
  confidence_invariant
    (setExtractedData (fun prev => match prev with
                                   | Some d => Some (f d)
                                   | None => None
                                   end) st).
Proof.
  intros Hf [He Hc]. split; [exact He |].
  unfold candidate_confident in *. cbn.
  destruct (extractedData (imageUpload st)) as [d |]; [| exact I].
  now rewrite Hf.
Qed.

Lemma deleteExpense_confidence (id : string) (st : State) :
  confidence_invariant st -> confidence_invariant (deleteExpense id st).
Proof.
  intros [He Hc]. split; [| exact Hc].
  cbn. apply Forall_forall. intros e Hin. apply filter_In in Hin.
  destruct Hin as [Hin _]. now apply (proj1 (Forall_forall _ _) He).
Qed.

Lemma dispatch_confidence_invariant
  (formatCurrency Number_toString : number -> string) (sys : System) (ev : Event) :
  confidence_invariant (ui sys) ->
  confidence_invariant (ui (dispatch formatCurrency Number_toString sys ev)).
Proof.
  intros H. destruct ev; cbn [dispatch update ui]; try rewrite ui_finish;
    try exact H.
  - now apply handleManualSubmit_confidence.
  - now apply handleExcelDrop_confidence.
  - now apply handleExcelSelect_confidence.
  - now apply handleExcelConfirm_confidence.
  - now apply handleImageDrop_confidence.
  - now apply handleImageSelect_confidence.
  - now apply (edit_confidence
                 (fun d => ExtractedExpense.mk v (ExtractedExpense.category d)
                             (ExtractedExpense.notes d) (ExtractedExpense.confidence d))).
  - now apply (edit_confidence
                 (fun d => ExtractedExpense.mk (ExtractedExpense.amount d) v
                             (ExtractedExpense.notes d) (ExtractedExpense.confidence d))).
  - now apply (edit_confidence
                 (fun d => ExtractedExpense.mk (ExtractedExpense.amount d)
                             (ExtractedExpense.category d) v
                             (ExtractedExpense.confidence d))).
  - now apply handleImageConfirm_confidence.
  - now apply (confidence_invariant_no_candidate (ui sys)).
  - now apply deleteExpense_confidence.
  - destruct (nth_error (pending sys) n) as [k |]; [| exact H].
    destruct k as [amount category notes | file | | file | ];
      destruct reply as [r | r | r | r]; cbn [resume]; try exact H;
      rewrite ui_finish; cbn [fst].
    + now apply handleManualSubmit_settled_confidence.
    + now apply processExcelFile_uploaded_confidence.
    + now apply processExcelFile_settled_confidence.
    + now apply processImage_uploaded_confidence.
    + now apply processImage_settled_confidence.
Qed.

(** X20. On every page that the events can lead to, the confidence of a
    record goes with its source: a record from a receipt image carries a
    confidence that is truthy, whatever value the reply held, so the
    history list draws its badge; a manual or spreadsheet record carries
    none. *)
Theorem confidence_goes_with_the_image_source
  (formatCurrency Number_toString : number -> string) (sys : System) :
  reachable formatCurrency Number_toString sys ->
  Forall confidence_of_source (ledger sys).
Proof.
  intros [events <-].
  assert (H : forall events sys0,
             confidence_invariant (ui sys0) ->
             confidence_invariant
               (ui (run_events formatCurrency Number_toString sys0 events))).
  { clear events. induction events as [|ev events IH]; intros sys0 H0; [exact H0 |].
    change (run_events formatCurrency Number_toString sys0 (ev :: events))
      with (run_events formatCurrency Number_toString
              (dispatch formatCurrency Number_toString sys0 ev) events).
    apply IH. now apply dispatch_confidence_invariant. }
  apply (H events initialSystem). split; [constructor | exact I].
Qed.

(** ** One manual entry at a time *)

Lemma count_app {A : Type} (f : A -> bool) (l : list A) (k : A) :
  List.length (filter f (l ++ [k]))
  = List.length (filter f l) + (if f k then 1 else 0).
Proof.
  rewrite filter_app, length_app. simpl. now destruct (f k).
Qed.

Lemma count_remove_nth {A : Type} (f : A -> bool) (n : nat) (l : list A) (k : A) :
  nth_error l n = Some k ->
  List.length (filter f (remove_nth n l)) + (if f k then 1 else 0)
  = List.length (filter f l).
Proof.
  revert n; induction l as [|x l IH]; intros n H.
  - now destruct n.
  - destruct n as [|n]; simpl in *.
    + injection H as ->. destruct (f k); simpl; lia.
    + specialize (IH n H). destruct (f x); simpl; lia.
Qed.

Lemma manual_invariant_frame (sys sys' : System) (k : Pending) (n : nat) :
  manualLoading (manualEntry (ui sys')) = manualLoading (manualEntry (ui sys)) ->
  (pending sys' = pending sys
   \/ (nth_error (pending sys) n = Some k
       /\ match k with AwaitManualAgent _ _ _ => False | _ => True end
       /\ (pending sys' = remove_nth n (pending sys)
           \/ exists k', pending sys' = (remove_nth n (pending sys) ++ [k'])%list
                         /\ match k' with
                            | AwaitManualAgent _ _ _ => False
                            | _ => True
                            end))
   \/ exists k', pending sys' = (pending sys ++ [k'])%list
                 /\ match k' with AwaitManualAgent _ _ _ => False | _ => True end) ->
  manual_invariant sys -> manual_invariant sys'.
Proof.
  unfold manual_invariant, manual_calls_outstanding. intros -> Hp <-.
  destruct Hp as [-> | [[Hn [Hk Hp]] | [k' [-> Hk']]]].
  - reflexivity.
  - rewrite <- (count_remove_nth _ n (pending sys) k Hn).
    destruct Hp as [-> | [k' [-> Hk']]].
    + destruct k; try contradiction; lia.
    + rewrite count_app. destruct k; try contradiction; destruct k'; try contradiction; lia.
  - rewrite count_app. destruct k'; try contradiction; lia.
Qed.

Lemma dispatch_manual_invariant (toLowerCase : string -> string)
  (formatCurrency Number_toString : number -> string) (sys : System) (ev : Event) :
  offered toLowerCase (ui sys) ev = true ->
  manual_invariant sys ->
  manual_invariant (dispatch formatCurrency Number_toString sys ev).
Proof.
  intros Hoff Hinv.
  destruct ev; cbn [dispatch]; try exact Hinv.
  - (* Add Expense *)
    cbn [offered] in Hoff. apply negb_true_iff in Hoff.
    unfold manual_invariant, manual_calls_outstanding in *. rewrite Hoff in Hinv.
    unfold handleManualSubmit.
    destruct (negb (truthy_string (manualAmount (manualEntry (ui sys))))
              || (parseFloat (manualAmount (manualEntry (ui sys))) <=? 0)%float).
    + cbn. now rewrite Hoff.
    + destruct (negb (truthy_string (manualCategory (manualEntry (ui sys))))).
      * cbn. now rewrite Hoff.
      * cbn [finish ui pending]. rewrite count_app. cbn. lia.
  - (* spreadsheet dropped *)
    apply (manual_invariant_frame sys _ AwaitExcelAgent 0); [| | exact Hinv];
      unfold handleExcelDrop; try unfold processExcelFile, processImage;
      split_on_conditions; cbn; auto.
    all: right; right; eexists; split; [reflexivity | exact I].
  - (* spreadsheet selected *)
    apply (manual_invariant_frame sys _ AwaitExcelAgent 0); [| | exact Hinv];
      unfold handleExcelSelect; try unfold processExcelFile, processImage;
      split_on_conditions; cbn; auto.
    all: right; right; eexists; split; [reflexivity | exact I].
  - (* Confirm Import *)
    apply (manual_invariant_frame sys _ AwaitExcelAgent 0); [| now left | exact Hinv].
    cbn [update ui]. unfold handleExcelConfirm. split_on_conditions; reflexivity.
  - (* image dropped *)
    apply (manual_invariant_frame sys _ AwaitExcelAgent 0); [| | exact Hinv];
      unfold handleImageDrop; try unfold processExcelFile, processImage;
      split_on_conditions; cbn; auto.
    all: right; right; eexists; split; [reflexivity | exact I].
  - (* image selected *)
    apply (manual_invariant_frame sys _ AwaitExcelAgent 0); [| | exact Hinv];
      unfold handleImageSelect; try unfold processExcelFile, processImage;
      split_on_conditions; cbn; auto.
    all: right; right; eexists; split; [reflexivity | exact I].
  - (* Confirm Entry *)
    apply (manual_invariant_frame sys _ AwaitExcelAgent 0); [| now left | exact Hinv].
    cbn [update ui]. unfold handleImageConfirm. split_on_conditions; reflexivity.
  - (* a promise settles *)
    destruct (nth_error (pending sys) n) as [k |] eqn:Hn; [| exact Hinv].
    destruct k as [amount category notes | file | | file | ];
      destruct reply as [r | r | r | r]; cbn [resume]; try exact Hinv.
    + unfold manual_invariant, manual_calls_outstanding in *.
      cbn [finish ui pending].
      pose proof (count_remove_nth
                    (fun k => match k with AwaitManualAgent _ _ _ => true | _ => false end)
                    n (pending sys) _ Hn) as Hc.
      cbn beta iota in Hc. rewrite Hinv in Hc.
      unfold handleManualSubmit_settled at 1. cbn.
      destruct (manualLoading (manualEntry (ui sys))); lia.
    + apply (manual_invariant_frame sys _ (AwaitExcelUpload file) n); [| | exact Hinv];
        unfold processExcelFile_uploaded;
        split_on_conditions; cbn; auto.
      all: right; left; split; [exact Hn | split; [exact I |]]; auto.
      all: right; eexists; split; [reflexivity | exact I].
    + apply (manual_invariant_frame sys _ AwaitExcelAgent n); [| | exact Hinv];
        unfold processExcelFile_settled;
        split_on_conditions; cbn; auto.
      all: right; left; split; [exact Hn | split; [exact I |]]; auto.
    + apply (manual_invariant_frame sys _ (AwaitImageUpload file) n); [| | exact Hinv];
        unfold processImage_uploaded;
        split_on_conditions; cbn; auto.
      all: right; left; split; [exact Hn | split; [exact I |]]; auto.
      all: right; eexists; split; [reflexivity | exact I].
    + apply (manual_invariant_frame sys _ AwaitImageAgent n); [| | exact Hinv];
        unfold processImage_settled;
        split_on_conditions; cbn; auto.
      all: right; left; split; [exact Hn | split; [exact I |]]; auto.
Qed.

(** X21. While the user only does what the page offers ('Add Expense' is
    disabled during [manualLoading]), the manual form never has two agent
    calls outstanding, and it shows its loading state exactly while one
    is. *)
Theorem one_manual_entry_at_a_time (toLowerCase : string -> string)
  (formatCurrency Number_toString : number -> string) (events : list Event) :
  offered_run toLowerCase formatCurrency Number_toString initialSystem events ->
  let sys := run_events formatCurrency Number_toString initialSystem events in
  manual_calls_outstanding sys <= 1
  /\ (manualLoading (manualEntry (ui sys)) = true <-> manual_calls_outstanding sys = 1).
Proof.
  intros Hrun sys.
  assert (H : forall events sys0,
             manual_invariant sys0 ->
             offered_run toLowerCase formatCurrency Number_toString sys0 events ->
             manual_invariant (run_events formatCurrency Number_toString sys0 events)).
  { clear. induction events as [|ev events IH]; intros sys0 H0 Hrun; [exact H0 |].
    destruct Hrun as [Hoff Hrest].
    change (run_events formatCurrency Number_toString sys0 (ev :: events))
      with (run_events formatCurrency Number_toString
              (dispatch formatCurrency Number_toString sys0 ev) events).
    apply IH; [| exact Hrest]. now apply (dispatch_manual_invariant toLowerCase). }
  specialize (H events initialSystem eq_refl Hrun). fold sys in H.
  unfold manual_invariant in H. rewrite H.
  destruct (manualLoading (manualEntry (ui sys))); split; try lia; split; auto; discriminate.
Qed.

(* ================================================================== *)
(** * 21. The chat *)
(* ================================================================== *)

Lemma white_space_prefix_shorter (s s' : string) :
  white_space_prefix s = Some s' -> String.length s' < String.length s.
Proof.
  unfold white_space_prefix.
  destruct s as [|c [|c2 [|c3 s3]]]; try discriminate;
    repeat match goal with
           | |- context [if ?b then _ else _] => destruct b
           end;
    intros H; try discriminate; injection H as <-; simpl; lia.
Qed.

Lemma trimStart_fuel_blank (fuel : nat) (s : string) :
  trimStart_fuel fuel s = "" -> WhiteSpaceOnly s.
Proof.
  revert s; induction fuel as [|fuel IH]; intros s; simpl.
  - intros ->. constructor.
  - destruct (white_space_prefix s) as [s' |] eqn:E.
    + intros H. apply (blank_more s s' E). now apply IH.
    + intros ->. constructor.
Qed.

Lemma blank_trimStart_fuel (s : string) :
  WhiteSpaceOnly s ->
  forall fuel, String.length s <= fuel -> trimStart_fuel fuel s = "".
Proof.
  induction 1 as [|s s' E _ IH]; intros fuel Hf.
  - now destruct fuel.
  - pose proof (white_space_prefix_shorter s s' E) as Hlt.
    destruct fuel as [|fuel]; [lia |]. simpl. rewrite E. apply IH. lia.
Qed.

Lemma trimStart_blank (s : string) : trimStart s = "" <-> WhiteSpaceOnly s.
Proof.
  split.
  - apply trimStart_fuel_blank.
  - intros H. now apply blank_trimStart_fuel.
Qed.

Lemma trimStart_fuel_suffix (fuel : nat) (s : string) :
  String.length (trimStart_fuel fuel s) <= String.length s.
Proof.
  revert s; induction fuel as [|fuel IH]; intros s; simpl; [lia |].
  destruct (white_space_prefix s) as [s' |] eqn:E; [| lia].
  pose proof (white_space_prefix_shorter s s' E). specialize (IH s'). lia.
Qed.

Lemma trimStart_fuel_done (fuel : nat) (s : string) :
  String.length s <= fuel -> white_space_prefix (trimStart_fuel fuel s) = None.
Proof.
  revert s; induction fuel as [|fuel IH]; intros s Hf; simpl.
  - destruct s; [reflexivity | simpl in Hf; lia].
  - destruct (white_space_prefix s) as [s' |] eqn:E; [| exact E].
    apply IH. pose proof (white_space_prefix_shorter s s' E). lia.
Qed.

Lemma trimStart_idempotent (s : string) : trimStart (trimStart s) = trimStart s.
Proof.
  pose proof (trimStart_fuel_done (String.length s) s (le_n _)) as H.
  fold (trimStart s) in H. unfold trimStart at 1.
  destruct (String.length (trimStart s)); simpl; [reflexivity | now rewrite H].
Qed.

Lemma trim_blank (s : string) : trim s = "" <-> WhiteSpaceOnly s.
Proof.
  rewrite <- trimStart_blank. unfold trim. split.
  - destruct (trimStart s) as [|c t] eqn:E; [reflexivity |].
    cbn [trimEnd]. rewrite <- E, trimStart_idempotent, E. simpl. discriminate.
  - intros ->. reflexivity.
Qed.

Lemma truthy_string_trim (s : string) :
  truthy_string (trim s) = false <-> WhiteSpaceOnly s.
Proof.
  rewrite <- trim_blank. destruct (trim s); simpl; split; congruence.
Qed.

(** X22. A question made of white space only is not sent: the send button
    is disabled for it, and the handler, which the Enter key reaches
    without the button, returns without a call and leaves the transcript,
    the input and the loading flag as they are. *)
Theorem blank_question_is_not_sent (formatCurrency : number -> string)
  (expenses : list Expense.t) (clock : Clock) (c : ChatState) :
  WhiteSpaceOnly (chatInput c) ->
  sendDisabled c = true
  /\ handleChatSend formatCurrency expenses clock c = (c, None).
Proof.
  intros H. apply truthy_string_trim in H.
  unfold sendDisabled, handleChatSend. rewrite H. split; [apply orb_true_r | reflexivity].
Qed.

(** X23. One question makes one round trip.  A question that is not
    blank is sent to the agent once, followed by the summary of the whole
    ledger (by nothing when the ledger is empty); the input is cleared and
    the send button disabled while the call is outstanding.  However the
    call settles and whatever the reply holds, the transcript of before is
    kept and grows by exactly the user's message and one assistant message
    whose content is truthy (so never the empty text), and the loading
    flag is cleared. *)
Theorem chat_round_trip (formatCurrency : number -> string)
  (expenses : list Expense.t) (clock clock' : Clock)
  (result : Settled (AgentResult ChatResult)) (c : ChatState) :
  ~ WhiteSpaceOnly (chatInput c) ->
  let sent := handleChatSend formatCurrency expenses clock c in
  let answered := handleChatSend_settled result clock' (fst sent) in
  snd sent
  = Some (callAIAgent (chatInput c ++ expenseContext formatCurrency expenses)
            AGENT_ID None)
  /\ (expenses = [] -> snd sent = Some (callAIAgent (chatInput c) AGENT_ID None))
  /\ chatInput (fst sent) = ""
  /\ sendDisabled (fst sent) = true
  /\ chatLoading answered = false
  /\ exists reply,
       truthy_value reply = true
       /\ chatMessages answered
          = (chatMessages c
             ++ [ ChatMessage.mk user (JsString (chatInput c))
                    (Date_toISOString clock 0);
                  ChatMessage.mk assistant reply (Date_toISOString clock' 0) ])%list.
Proof.
  intros Hq sent answered.
  assert (E : negb (truthy_string (trim (chatInput c))) = false).
  { destruct (truthy_string (trim (chatInput c))) eqn:E; [reflexivity |].
    exfalso. apply Hq. now apply truthy_string_trim. }
  unfold answered, sent, handleChatSend. rewrite E. cbn.
  split; [reflexivity |]. split.
  { intros ->. cbn. now rewrite string_app_nil_r. }
  split; [reflexivity |]. split; [reflexivity |]. split; [reflexivity |].
  eexists. split; [| rewrite <- app_assoc; reflexivity].
  destruct result as [r |]; [| reflexivity].
  unfold responseContent.
  destruct (agent_succeeded r) as [[|] |]; try reflexivity.
  destruct (response r) as [[status0 message0 [res |]] |]; try reflexivity.
  repeat apply or_value_truthy. reflexivity.
Qed.

(* ================================================================== *)
(** * 22. Outcomes and the history list *)
(* ================================================================== *)

(** X24. Every outcome is reported once.  When a settled promise resumes
    its handler, the run either goes on to the agent call after a
    successful upload, adding no notification, or it ends and adds exactly
    one notification behind those on display, of the kind 'error' exactly
    when the reply was a failure. *)
Theorem each_outcome_is_notified_once
  (formatCurrency Number_toString : number -> string)
  (k : Pending) (reply : Reply) (clock : Clock) (st : State) (r : Run) :
  resume formatCurrency Number_toString k reply clock st = Some r ->
  match snd r with
  | Some _ => failure k reply = false /\ notifications (fst r) = notifications st
  | None =>
      exists n,
        notifications (fst r) = (notifications st ++ [n])%list
        /\ (Notification.type n = error <-> failure k reply = true)
  end.
Proof.
  destruct k as [amount category notes | file | | file | ];
    destruct reply as [s | s | s | s]; cbn [resume]; try discriminate;
    intros [= <-];
    unfold failure, agent_failed, upload_failed, agent_succeeded,
      handleManualSubmit_settled, handleManualSubmit_catch,
      processExcelFile_uploaded, processExcelFile_settled, processExcelFile_catch,
      processImage_uploaded, processImage_settled, processImage_catch,
      response_message;
    unfold agent_succeeded, response_message;
    first
      [ destruct s as [u |]; [destruct (upload_success u); destruct (asset_ids u) |]
      | destruct s as [a |];
        [ destruct (success_flag a);
          destruct (response a) as [[status0 message0 [res |]] |];
          cbn [status message result];
          try destruct (String.eqb status0 "success") |] ];
    cbn;
    try (split; reflexivity);
    try (eexists; split; [reflexivity |]; cbn; split; intros; congruence).
Qed.

Lemma filter_commute {A : Type} (f g : A -> bool) (l : list A) :
  filter f (filter g l) = filter g (filter f l).
Proof.
  induction l as [|x l IH]; simpl; [reflexivity |].
  destruct (f x) eqn:Ef, (g x) eqn:Eg; simpl; rewrite ?Ef, ?Eg, IH; reflexivity.
Qed.

(** X25. Deleting and filtering commute: after a click on a delete button
    the history list is the list of before without the records of that id,
    whatever the search text and the category filter are, so the records
    that stay on display keep their order. *)
Theorem deletion_commutes_with_the_filter
  (toLowerCase : string -> string) (id : string) (st : State) :
  let shown st0 :=
    filteredExpenses toLowerCase (expenses st0) (searchQuery st0) (filterCategory st0) in
  shown (deleteExpense id st)
  = filter (fun e => negb (String.eqb (Expense.id e) id)) (shown st)
  /\ ExactlyThose (fun e => Expense.id e <> id) (shown st) (shown (deleteExpense id st)).
Proof.
  cbn zeta.
  assert (E : filteredExpenses toLowerCase (expenses (deleteExpense id st))
                (searchQuery (deleteExpense id st)) (filterCategory (deleteExpense id st))
              = filter (fun e => negb (String.eqb (Expense.id e) id))
                  (filteredExpenses toLowerCase (expenses st) (searchQuery st)
                     (filterCategory st))).
  { cbn. unfold filteredExpenses. apply filter_commute. }
  split; [exact E |].
  rewrite E. apply filter_ExactlyThose. intros e.
  rewrite negb_true_iff. split.
  - intros H Eid. apply String.eqb_eq in Eid. congruence.
  - intros H. now apply String.eqb_neq.
Qed.

(* ================================================================== *)
(** * 23. The further properties at sample values *)
(* ================================================================== *)

(** X1 (witness). *)
Lemma default_filter_witness :
  filteredExpenses ascii_toLowerCase smallLedger "" "all" = smallLedger.
Proof.
  exact (proj1 (default_filter_keeps_every_record ascii_toLowerCase smallLedger eq_refl)).
Defined.

(** X2 (witness). *)
Lemma extending_the_query_witness :
  filteredExpenses ascii_toLowerCase
    (filteredExpenses ascii_toLowerCase smallLedger "t" "all") "tr" "all"
  = filteredExpenses ascii_toLowerCase smallLedger "tr" "all".
Proof.
  apply (extending_the_query_refines_the_result ascii_toLowerCase smallLedger "t" "tr").
  exists "", "r". reflexivity.
Defined.

(** X5 (witness). *)
Lemma category_filter_witness :
  Forall (fun e => Expense.category e = "Travel")
    (filteredExpenses ascii_toLowerCase smallLedger "" "Travel").
Proof.
  apply (category_filter_fixes_the_top_category ascii_toLowerCase smallLedger "" "Travel").
  discriminate.
Defined.

(** X9 (witness). *)
Lemma empty_expenses_array_witness :
  excelPreview
    (excelUpload
       (processExcelFile_settled (Fulfilled emptySheetReply) (clockAt 1700000002000)
          initialState))
  = [].
Proof.
  pose proof (empty_expenses_array_gives_an_empty_preview ascii_toLowerCase
                emptySheetReply emptySheetResponse emptySheet (clockAt 1700000002000)
                (clockAt 1700000003000) initialState eq_refl eq_refl eq_refl eq_refl) as H.
  cbn zeta in H. exact (proj1 H).
Defined.

(** X14 (witness). *)
Lemma notification_expires_witness :
  notifications
    (expireNotification (Z_toString 1700000002000)
       (addNotification success "Expense added" 1700000002000 initialState))
  = [].
Proof.
  refine (proj1 (notification_expires success "Expense added" 1700000002000
                   initialState _)).
  intros [].
Defined.

(** X15 (witness). *)
Lemma spreadsheet_drop_witness : snd (handleExcelDrop (Some textFile) initialState) = None.
Proof.
  destruct (spreadsheet_drop_is_checked_by_name (Some textFile) initialState eq_refl)
    as [_ H].
  apply H. intros file [= <-] stem ext Hext E.
  assert (Hends : endsWith (File.name textFile) ext = true)
    by (apply endsWith_spec; now exists stem).
  simpl in Hext. destruct Hext as [<- | [<- | [<- | []]]]; vm_compute in Hends;
    discriminate Hends.
Defined.

(** X16 (witness). *)
Lemma image_drop_witness : snd (handleImageDrop (Some sheetFile) initialState) = None.
Proof.
  destruct (image_drop_is_checked_by_type (Some sheetFile) initialState eq_refl)
    as [_ H].
  apply H. intros file [= <-] subtype E.
  assert (Hstarts : startsWith (File.type sheetFile) "image/" = true)
    by (apply startsWith_spec; now exists subtype).
  vm_compute in Hstarts. discriminate Hstarts.
Defined.

(** X17 (witness). *)
Lemma ledger_grows_witness :
  exists new,
    ledger (run_events showNumber showNumber initialSystem
              (collidingAppends 1700000002000))
    = (new ++ ledger initialSystem)%list.
Proof.
  apply (ledger_grows_at_the_head showNumber showNumber
           (collidingAppends 1700000002000) initialSystem).
  intros id H. unfold collidingAppends, extractReceipt in H. simpl in H.
  repeat (destruct H as [H | H]; [discriminate H |]). exact H.
Defined.

(** X18 (witness). *)
Lemma record_stays_witness :
  In taxiRecord
    (ledger (run_events showNumber showNumber ledgerPage
               [ClickDelete "1700000000002"; ClickConfirmImport (clockAt 1700000004000)])).
Proof.
  apply (record_stays_until_deleted showNumber showNumber).
  - left. reflexivity.
  - intros [H | [H | []]]; discriminate H.
Defined.

(** X19 (witness). *)
Lemma delete_removes_one_witness :
  NoDup
    (ids (ledger (run_events showNumber showNumber initialSystem
                    (separateAppends 1700000002000 1700000003000)))).
Proof.
  refine (proj1 (delete_removes_one_while_clock_distinct showNumber showNumber
                   (separateAppends 1700000002000 1700000003000) manualRecord _ _)).
  - vm_compute. repeat split; intros t H; intuition (try discriminate; try lia).
  - assert (E : ledger (run_events showNumber showNumber initialSystem
                          (separateAppends 1700000002000 1700000003000))
                = [ Expense.mk "1700000003000" 12.5%float "Food & Dining" "Cafe"
                      "2023-11-14T22:13:20.000Z" image (Some (JsNumber 80%float));
                    manualRecord ])
      by (vm_compute; reflexivity).
    rewrite E. right. left. reflexivity.
Defined.

(** X20 (witness). *)
Lemma confidence_witness :
  Forall confidence_of_source
    (ledger (run_events showNumber showNumber initialSystem
               (collidingAppends 1700000002000))).
Proof.
  apply (confidence_goes_with_the_image_source showNumber showNumber).
  exists (collidingAppends 1700000002000). reflexivity.
Defined.

(** X21 (witness). *)
Lemma one_manual_entry_witness :
  manual_calls_outstanding
    (run_events showNumber showNumber initialSystem
       (separateAppends 1700000002000 1700000003000))
  <= 1.
Proof.
  refine (proj1 (one_manual_entry_at_a_time ascii_toLowerCase showNumber showNumber
                   (separateAppends 1700000002000 1700000003000) _)).
  vm_compute. repeat split.
Defined.

(** X22 (witness). *)
Lemma blank_question_witness :
  handleChatSend showNumber smallLedger (clockAt 1700000002000) blankChat
  = (blankChat, None).
Proof.
  refine (proj2 (blank_question_is_not_sent showNumber smallLedger
                   (clockAt 1700000002000) blankChat _)).
  apply trimStart_blank. reflexivity.
Defined.

(** X23 (witness). *)
Lemma chat_round_trip_witness :
  chatLoading
    (handleChatSend_settled Thrown (clockAt 1700000003000)
       (fst (handleChatSend showNumber smallLedger (clockAt 1700000002000) askedChat)))
  = false.
Proof.
  pose proof (chat_round_trip showNumber smallLedger (clockAt 1700000002000)
                (clockAt 1700000003000) Thrown askedChat) as H.
  cbn zeta in H. apply H.
  intros Hblank. apply (proj2 (trimStart_blank _)) in Hblank.
  vm_compute in Hblank. discriminate Hblank.
Defined.

(** X24 (witness). *)
Lemma each_outcome_witness :
  exists n,
    notifications
      (handleManualSubmit_settled showNumber "20" "Travel" "" agentError
         (clockAt 1700000002000) filledForm)
    = (notifications filledForm ++ [n])%list
    /\ Notification.type n = error.
Proof.
  pose proof (each_outcome_is_notified_once showNumber showNumber
                (AwaitManualAgent "20" "Travel" "") (ManualReply agentError)
                (clockAt 1700000002000) filledForm _ eq_refl) as H.
  cbn [snd fst] in H. destruct H as [n [Hn Htype]].
  exists n. split; [exact Hn |]. apply Htype. reflexivity.
Defined.

